(** * Photometric helpers of [How_to_use_the_File_Services.ipynb]

    A shallow embedding of the four numeric helper functions defined in the
    notebook [04_HowTos/FileService/How_to_use_the_File_Services.ipynb]:

    - [sdss_objid]        packs (rerun, run, camcol, field, id) into a 64-bit ObjID;
    - [asinh_mag]         converts per-band fluxes into asinh magnitudes;
    - [auxilliary_colors] derives the colours c_par, c_perp, d_perp;
    - [asinh_image]       converts an image band into asinh magnitudes.

    Conventions of the embedding.

    - A [numpy.uint64] is a [Z] in [0, 2^64); [astype(np.uint64)] and the left
      shift wrap around modulo 2^64, which is written out.
    - A Python exception is a value of type [exn]; a function that may raise
      returns [result A = exn + A].
    - A structured array is a [dtype] (the ordered field names) together with
      its rows; [data['name']] is the column of that name and raises when the
      dtype has no such field.
    - Floating-point columns are interpreted in the real numbers: [np.log] is
      [ln], [np.arcsinh] is [arcsinh], and rounding is not modelled.  The
      dtype [dt] that [asinh_mag] and [auxilliary_colors] read from the column
      of the first band only fixes the precision of the output, so what is
      kept of it is the column access itself. *)

From Stdlib Require Import ZArith List String Ascii Bool Lia.
From Stdlib Require Import Reals Lra.
From Corelib Require Import PrimFloat.
From Stdlib Require Import DecimalString DecimalZ.
Import ListNotations.

(** ** Exceptions and results *)

Inductive exn : Type :=
| ValueError (msg : string)      (* raise ValueError("...") in the source, and numpy's own *)
| NoField (name : string)        (* numpy: ValueError "no field of name <name>" *)
| IndexError                     (* bands[0] on an empty string *)
| KeyError (key : string).       (* b[band] on a dict without that key *)

Definition result (A : Type) : Type := (exn + A)%type.

Definition Ok {A : Type} (a : A) : result A := inr a.
Definition Raise {A : Type} (e : exn) : result A := inl e.

Definition bind {A B : Type} (m : result A) (k : A -> result B) : result B :=
  match m with
  | inl e => inl e
  | inr a => k a
  end.

Declare Scope result_scope.
Delimit Scope result_scope with result.
Notation "x <- m ;; k" := (bind m (fun x => k))
  (at level 61, m at next level, right associativity) : result_scope.

(** Elementwise combination of two columns of one array ([a | b], [a - b]). *)
Fixpoint map2 {A B C : Type} (f : A -> B -> C) (l : list A) (l' : list B) : list C :=
  match l, l' with
  | x :: t, y :: t' => f x y :: map2 f t t'
  | _, _ => []
  end.

(** ** The ObjID encoder *)

Module ObjID.
Local Open Scope string_scope.
Local Open Scope Z_scope.

(** One row of the input array: the five integer columns [sdss_objid] reads. *)
Record CatalogRow : Type := mkRow {
  row_rerun : Z;
  row_run : Z;
  row_camcol : Z;
  row_field : Z;
  row_id : Z
}.

(** Values an integer column of a numpy array can hold (int8 .. int64 and
    uint8 .. uint64 together).  The statements below are about such rows: a
    Python integer outside this range cannot be stored in the array, and the
    conversion of the rerun column raises OverflowError on it. *)
Definition np_integer (x : Z) : Prop := - 2 ^ 63 <= x < 2 ^ 64.

Definition np_integer_row (r : CatalogRow) : Prop :=
  np_integer (row_rerun r) /\ np_integer (row_run r) /\ np_integer (row_camcol r) /\
  np_integer (row_field r) /\ np_integer (row_id r).

(** [x.astype(np.uint64)]: two's complement wrap-around.  The rerun column
    goes through [np.array(list(map(int, ...)), dtype=np.uint64)] instead,
    which wraps a negative integer in the same way under numpy 1.x. *)
Definition uint64 (x : Z) : Z := x mod 2 ^ 64.

(** [a << n] on [np.uint64]. *)
Definition shl64 (a n : Z) : Z := (Z.shiftl a n) mod 2 ^ 64.

(** [(cond).any()] over a column. *)
Definition any (cond : Z -> bool) (col : list Z) : bool := existsb cond col.

Definition col_shl (col : list Z) (n : Z) : list Z := map (fun x => shl64 x n) col.
Definition col_or (a b : list Z) : list Z := map2 Z.lor a b.

Definition sdss_objid (data : list CatalogRow) : result (list Z) :=
  let skyversion := map (fun _ => uint64 (0 + 2)) data in
  let rerun := map (fun r => uint64 (row_rerun r)) data in
  let run := map (fun r => uint64 (row_run r)) data in
  let camcol := map (fun r => uint64 (row_camcol r)) data in
  let firstfield := map (fun _ => uint64 0) data in
  let field := map (fun r => uint64 (row_field r)) data in
  let objnum := map (fun r => uint64 (row_id r)) data in
  if any (fun x => (x <? 0) || (x >=? 16)) skyversion then
    Raise (ValueError "skyversion values are out-of-bounds!")
  else if any (fun x => (x <? 0) || (x >=? 2 ^ 11)) rerun then
    Raise (ValueError "rerun values are out-of-bounds!")
  else if any (fun x => (x <? 0) || (x >=? 2 ^ 16)) run then
    Raise (ValueError "run values are out-of-bounds!")
  else if any (fun x => (x <? 1) || (x >? 6)) camcol then
    Raise (ValueError "camcol values are out-of-bounds!")
  else if any (fun x => (x <? 0) || (x >=? 2 ^ 12)) field then
    Raise (ValueError "field values are out-of-bounds!")
  else if any (fun x => (x <? 0) || (x >=? 2 ^ 16)) objnum then
    Raise (ValueError "id values are out-of-bounds!")
  else
    Ok (col_or (col_or (col_or (col_or (col_or (col_or
          (col_shl skyversion 59)
          (col_shl rerun 48))
          (col_shl run 32))
          (col_shl camcol 29))
          (col_shl firstfield 28))
          (col_shl field 16))
          objnum).

(** The identifier of one row, as the elementwise expression computes it. *)
Definition objid_row (r : CatalogRow) : Z :=
  Z.lor (Z.lor (Z.lor (Z.lor (Z.lor (Z.lor
    (shl64 (uint64 (0 + 2)) 59)
    (shl64 (uint64 (row_rerun r)) 48))
    (shl64 (uint64 (row_run r)) 32))
    (shl64 (uint64 (row_camcol r)) 29))
    (shl64 (uint64 0) 28))
    (shl64 (uint64 (row_field r)) 16))
    (uint64 (row_id r)).

(** The documented ranges of the five fields. *)
Definition rerun_ok (r : CatalogRow) : Prop := 0 <= row_rerun r < 2 ^ 11.
Definition run_ok (r : CatalogRow) : Prop := 0 <= row_run r < 2 ^ 16.
Definition camcol_ok (r : CatalogRow) : Prop := 1 <= row_camcol r <= 6.
Definition field_ok (r : CatalogRow) : Prop := 0 <= row_field r < 2 ^ 12.
Definition id_ok (r : CatalogRow) : Prop := 0 <= row_id r < 2 ^ 16.

Definition in_range (r : CatalogRow) : Prop :=
  rerun_ok r /\ run_ok r /\ camcol_ok r /\ field_ok r /\ id_ok r.

(** Bits [lo .. lo+width-1] of an identifier, read as an unsigned number. *)
Definition bits (x lo width : Z) : Z := Z.land (Z.shiftr x lo) (Z.ones width).

(** The ObjID layout, written with the documented bit positions. *)
Record layout (r : CatalogRow) (x : Z) : Prop := mkLayout {
  layout_word : 0 <= x < 2 ^ 64;
  layout_bit63 : Z.testbit x 63 = false;
  layout_skyversion : bits x 59 4 = 2;
  layout_rerun : bits x 48 11 = row_rerun r;
  layout_run : bits x 32 16 = row_run r;
  layout_camcol : bits x 29 3 = row_camcol r;
  layout_firstfield : Z.testbit x 28 = false;
  layout_field : bits x 16 12 = row_field r;
  layout_id : bits x 0 16 = row_id r
}.

(** The identifier obtained by substituting a row into the bit formula. *)
Definition objid_formula (r : CatalogRow) : Z :=
  Z.lor (Z.lor (Z.lor (Z.lor (Z.lor
    (Z.shiftl 2 59)
    (Z.shiftl (row_rerun r) 48))
    (Z.shiftl (row_run r) 32))
    (Z.shiftl (row_camcol r) 29))
    (Z.shiftl (row_field r) 16))
    (row_id r).

(** The same identifier as a sum of the fields scaled to their positions. *)
Definition objid_sum (r : CatalogRow) : Z :=
  2 * 2 ^ 59 + row_rerun r * 2 ^ 48 + row_run r * 2 ^ 32 + row_camcol r * 2 ^ 29
  + row_field r * 2 ^ 16 + row_id r.

End ObjID.

(** ** Structured arrays of floating-point columns *)

Module Photometry.
Local Open Scope string_scope.
Local Open Scope R_scope.
Local Open Scope result_scope.

(** A structured array of shape (N,): the field names of its dtype and its N
    records.  A record is read only at the names of the dtype. *)
Record ndarray : Type := mkArray {
  fields : list string;
  records : list (string -> R)
}.

Definition shape (a : ndarray) : nat := List.length (records a).

Definition has_field (a : ndarray) (name : string) : bool :=
  existsb (String.eqb name) (fields a).

(** [a[name]]: the column, or numpy's "no field of name". *)
Definition getitem (a : ndarray) (name : string) : result (list R) :=
  if has_field a name then Ok (map (fun rec => rec name) (records a))
  else Raise (NoField name).

Definition update (rec : string -> R) (name : string) (v : R) : string -> R :=
  fun k => if String.eqb k name then v else rec k.

Definition set_column (a : ndarray) (name : string) (col : list R) : ndarray :=
  mkArray (fields a) (map2 (fun rec v => update rec name v) (records a) col).

(** [a[name] = col]. *)
Definition setitem (a : ndarray) (name : string) (col : list R) : result ndarray :=
  if has_field a name then Ok (set_column a name col) else Raise (NoField name).

Fixpoint nodupb (names : list string) : bool :=
  match names with
  | [] => true
  | n :: t => negb (existsb (String.eqb n) t) && nodupb t
  end.

(** [np.dtype([(name, dt) for ...])]: numpy refuses a repeated field name
    (its message, which quotes the name, is abbreviated). *)
Definition mk_dtype (names : list string) : result (list string) :=
  if nodupb names then Ok names
  else Raise (ValueError "field occurs more than once").

(** [np.zeros(shape, dtype=[...])]. *)
Definition zeros (n : nat) (names : list string) : result ndarray :=
  dt <- mk_dtype names ;;
  Ok (mkArray dt (repeat (fun _ => 0) n)).

(** [np.array([tuple], dtype=[...])]: a one-row structured array; numpy
    refuses a tuple whose length is not the number of fields (its message,
    which quotes both lengths, is abbreviated). *)
Definition one_row (values : list R) (names : list string) : result (list (string * R)) :=
  dt <- mk_dtype names ;;
  if Nat.eqb (List.length values) (List.length dt) then Ok (combine dt values)
  else Raise (ValueError "could not assign tuple to structure").

Fixpoint lookup (key : string) (tbl : list (string * R)) : option R :=
  match tbl with
  | [] => None
  | (k, v) :: t => if String.eqb key k then Some v else lookup key t
  end.

(** [b[band]] on the one-row array [b]: its single value, which then
    broadcasts against a column. *)
Definition row_item (b : list (string * R)) (band : string) : result R :=
  match lookup band b with
  | Some v => Ok v
  | None => Raise (NoField band)
  end.

(** [b[band]] on a dict. *)
Definition dict_item (b : list (string * R)) (band : string) : result R :=
  match lookup band b with
  | Some v => Ok v
  | None => Raise (KeyError band)
  end.

(** [bands[0]]. *)
Definition first_band (bands : string) : result string :=
  match bands with
  | EmptyString => Raise IndexError
  | String c _ => Ok (String c EmptyString)
  end.

(** [for band in bands], one-character strings. *)
Definition iter_bands (bands : string) : list string :=
  map (fun c => String c EmptyString) (list_ascii_of_string bands).

(** A loop whose body may raise. *)
Fixpoint for_each {A S : Type} (l : list A) (body : A -> S -> result S) (s : S) : result S :=
  match l with
  | [] => Ok s
  | x :: t => s' <- body x s ;; for_each t body s'
  end.

(** ['{0}flux_{1}'.format(magtype, band)] and its siblings. *)
Definition flux_name (magtype band : string) : string := magtype ++ "flux_" ++ band.
Definition mag_name (magtype band : string) : string := magtype ++ "mag_" ++ band.
Definition extinction_name (band : string) : string := "extinction_" ++ band.

(** [C*(np.arcsinh((flux*1.0e-9)/(2.0*b)) + np.log(b))], elementwise. *)
Definition asinh_formula (C b : R) (flux : R) : R :=
  C * (arcsinh ((flux * 1.0e-9) / (2.0 * b)) + ln b).

Definition softening : list R := [1.4e-10; 0.9e-10; 1.2e-10; 1.8e-10; 7.4e-10].

(** The body of the loop of [asinh_mag]; the source reads [b[band]] twice,
    with the same result. *)
Definition asinh_mag_band (data : ndarray) (magtype : string) (deredden : bool)
    (C : R) (b : list (string * R)) (band : string) (mag : ndarray) : result ndarray :=
  flux <- getitem data (flux_name magtype band) ;;
  b_band <- row_item b band ;;
  mag <- setitem mag (mag_name magtype band) (map (asinh_formula C b_band) flux) ;;
  if deredden then
    cur <- getitem mag (mag_name magtype band) ;;
    ext <- getitem data (extinction_name band) ;;
    setitem mag (mag_name magtype band) (map2 Rminus cur ext)
  else Ok mag.

Definition asinh_mag (data : ndarray) (magtype bands : string) (deredden : bool)
    : result ndarray :=
  band0 <- first_band bands ;;
  dt <- getitem data (flux_name magtype band0) ;;
  let C := -2.5 / ln 10.0 in
  b <- one_row softening (iter_bands bands) ;;
  mag <- zeros (shape data) (map (mag_name magtype) (iter_bands bands)) ;;
  for_each (iter_bands bands) (asinh_mag_band data magtype deredden C b) mag.

Definition col_sub (a b : list R) : list R := map2 Rminus a b.
Definition col_add (a b : list R) : list R := map2 Rplus a b.
Definition col_scale (k : R) (a : list R) : list R := map (fun x => k * x) a.
Definition col_sub_const (a : list R) (k : R) : list R := map (fun x => x - k) a.
Definition col_div_const (a : list R) (k : R) : list R := map (fun x => x / k) a.

Definition auxilliary_colors (data : ndarray) (bands : string) : result ndarray :=
  band0 <- first_band bands ;;
  dt <- getitem data ("modelmag_" ++ band0) ;;
  aux <- zeros (shape data) ["c_par"; "c_perp"; "d_perp"] ;;
  g <- getitem data "modelmag_g" ;;
  r <- getitem data "modelmag_r" ;;
  r' <- getitem data "modelmag_r" ;;
  i <- getitem data "modelmag_i" ;;
  aux <- setitem aux "c_par"
           (col_add (col_scale 0.7 (col_sub g r))
                    (col_scale 1.2 (col_sub_const (col_sub r' i) 0.18))) ;;
  r <- getitem data "modelmag_r" ;;
  i <- getitem data "modelmag_i" ;;
  g <- getitem data "modelmag_g" ;;
  r' <- getitem data "modelmag_r" ;;
  aux <- setitem aux "c_perp"
           (col_sub_const (col_sub (col_sub r i) (col_div_const (col_sub g r') 4.0)) 0.18) ;;
  r <- getitem data "modelmag_r" ;;
  i <- getitem data "modelmag_i" ;;
  g <- getitem data "modelmag_g" ;;
  r' <- getitem data "modelmag_r" ;;
  aux <- setitem aux "d_perp"
           (col_sub (col_sub r i) (col_div_const (col_sub g r') 8.0)) ;;
  Ok aux.

(** [asinh_image]: the image is a plain float array, its pixels in order;
    here too [b[band]] is read twice. *)
Definition asinh_image (image : list R) (band : string) : result (list R) :=
  let C := -2.5 / ln 10.0 in
  let b := [("u", 1.4e-10); ("g", 0.9e-10); ("r", 1.2e-10); ("i", 1.8e-10); ("z", 7.4e-10)] in
  b_band <- dict_item b band ;;
  Ok (map (asinh_formula C b_band) image).

(** What the loop body leaves in one row of the band's column. *)
Definition row_value (C b_band : R) (deredden : bool) (flux ext : R) : R :=
  if deredden then asinh_formula C b_band flux - ext else asinh_formula C b_band flux.

(** The magnitude of one row: the formula, less the extinction when
    dereddening is requested. *)
Definition mag_value (b_band : R) (deredden : bool) (flux ext : R) : R :=
  let m := (-2.5 / ln 10) * (arcsinh (flux * 1e-9 / (2 * b_band)) + ln b_band) in
  if deredden then m - ext else m.

(** The colours of one row of model magnitudes. *)
Definition c_par (g r i : R) : R := 0.7 * (g - r) + 1.2 * (r - i - 0.18).
Definition c_perp (g r i : R) : R := (r - i) - (g - r) / 4 - 0.18.
Definition d_perp (g r i : R) : R := (r - i) - (g - r) / 8.

(** Sample inputs: the five model fluxes of one object, all zero, and of two
    objects, the second brighter than the first. *)
Definition model_flux_fields : list string :=
  ["modelflux_u"; "modelflux_g"; "modelflux_r"; "modelflux_i"; "modelflux_z"].
Definition zero_fluxes : ndarray := mkArray model_flux_fields [fun _ => 0].
Definition two_fluxes : ndarray := mkArray model_flux_fields [fun _ => 0; fun _ => 1].

(** One object with g=20.0, r=19.0, i=18.5 (and some u magnitude), and an
    input that has the g, r, i magnitudes only. *)
Definition sample_object : string -> R :=
  fun name =>
    if String.eqb name "modelmag_g" then 20.0
    else if String.eqb name "modelmag_r" then 19.0
    else if String.eqb name "modelmag_i" then 18.5
    else 21.0.
Definition ugri_mags : ndarray :=
  mkArray ["modelmag_u"; "modelmag_g"; "modelmag_r"; "modelmag_i"] [sample_object].
Definition gri_mags : ndarray :=
  mkArray ["modelmag_g"; "modelmag_r"; "modelmag_i"] [sample_object].

(** A call of [asinh_mag] that nothing stops: five distinct bands, each with
    its flux column, and each with its extinction column when dereddening. *)
Definition valid_call (data : ndarray) (magtype bands : string) (deredden : bool) : Prop :=
  List.length (iter_bands bands) = 5%nat /\
  nodupb (iter_bands bands) = true /\
  (forall band, In band (iter_bands bands) ->
     has_field data (flux_name magtype band) = true) /\
  (deredden = true ->
   forall band, In band (iter_bands bands) ->
     has_field data (extinction_name band) = true).

(** The documented softening parameter of each band. *)
Definition documented_b (band : string) : option R :=
  if String.eqb band "u" then Some 1.4e-10
  else if String.eqb band "g" then Some 0.9e-10
  else if String.eqb band "r" then Some 1.2e-10
  else if String.eqb band "i" then Some 1.8e-10
  else if String.eqb band "z" then Some 7.4e-10
  else None.

End Photometry.

(** ** The colour formulas in binary64

    The same three expressions on IEEE 754 double-precision numbers, the
    arithmetic numpy performs when the magnitude columns are [float64]. *)

Module Binary64.
Local Open Scope float_scope.
#[local] Set Warnings "-inexact-float".

Definition c_par (g r i : float) : float := 0.7 * (g - r) + 1.2 * (r - i - 0.18).
Definition c_perp (g r i : float) : float := (r - i) - (g - r) / 4.0 - 0.18.
Definition d_perp (g r i : float) : float := (r - i) - (g - r) / 8.0.

End Binary64.

(** ** Spectra and frames read from the file service

    [extract_spectrum] and [extract_frame] build the path of a FITS file,
    fetch and open it, and read arrays and header cards out of it.  The file
    service and the FITS reader are outside the notebook: they are the
    parameter [fits_open], which gives for a path the list of HDUs of the file
    stored there, or the exception of the failed access. *)

Module Spectro.
Local Open Scope string_scope.

(** [k] leading zeros before the digits [d]. *)
Fixpoint zfill (k : nat) (d : Decimal.uint) : Decimal.uint :=
  match k with
  | O => d
  | S k' => Decimal.D0 (zfill k' d)
  end.

(** Python's [format(n, '0Wd')]: the decimal digits of [n], zero-padded on
    the left to [width] characters, the sign counting as one of them;
    [width = 0] is the plain ['d']. *)
Definition format_d (width : nat) (n : Z) : string :=
  match Z.to_int n with
  | Decimal.Pos d =>
      NilEmpty.string_of_uint (zfill (width - Decimal.nb_digits d) d)
  | Decimal.Neg d =>
      String "-" (NilEmpty.string_of_uint (zfill (width - 1 - Decimal.nb_digits d) d))
  end.

(** ["{0}sdss/spectro/redux/{1}/{2:04d}/spPlate-{2:04d}-{3:05d}.fits"] *)
Definition spplate_path (sas run2d : string) (plate mjd : Z) : string :=
  sas ++ "sdss/spectro/redux/" ++ run2d ++ "/" ++ format_d 4 plate
      ++ "/spPlate-" ++ format_d 4 plate ++ "-" ++ format_d 5 mjd ++ ".fits".

(** ['{0}eboss/photoObj/frames/301/{1:d}/{2:d}/frame-{3}-{1:06d}-{2:d}-{4:04d}.fits.bz2'] *)
Definition frame_path (sas : string) (run camcol : Z) (band : string) (field : Z) : string :=
  sas ++ "eboss/photoObj/frames/301/" ++ format_d 0 run ++ "/" ++ format_d 0 camcol
      ++ "/frame-" ++ band ++ "-" ++ format_d 6 run ++ "-" ++ format_d 0 camcol
      ++ "-" ++ format_d 4 field ++ ".fits.bz2".

(** A header card holds an integer or a float. *)
Inductive card : Type :=
| IntCard (n : Z)
| FloatCard (x : R).

Definition card_value (c : card) : R :=
  match c with
  | IntCard n => IZR n
  | FloatCard x => x
  end.

(** One HDU: its header and its two-dimensional image, row by row. *)
Record hdu : Type := mkHDU {
  header : list (string * card);
  data : list (list R)
}.

(** [hdulist[i]] for a literal index. *)
Definition list_item {A : Type} (l : list A) (i : nat) : result A :=
  match nth_error l i with
  | Some x => Ok x
  | None => Raise IndexError
  end.

(** [image[i, :]]: row [i], counted from the end when [i] is negative. *)
Definition index_row (image : list (list R)) (i : Z) : result (list R) :=
  let n := Z.of_nat (List.length image) in
  if ((0 <=? i) && (i <? n))%Z then list_item image (Z.to_nat i)
  else if ((- n <=? i) && (i <? 0))%Z then list_item image (Z.to_nat (n + i))
  else Raise IndexError.

Fixpoint header_lookup (key : string) (hdr : list (string * card)) : option card :=
  match hdr with
  | [] => None
  | (k, c) :: t => if String.eqb key k then Some c else header_lookup key t
  end.

(** [hdr[key]]; for an absent keyword astropy raises
    [KeyError("Keyword 'KEY' not found.")]. *)
Definition header_item (hdr : list (string * card)) (key : string) : result card :=
  match header_lookup key hdr with
  | Some c => Ok c
  | None => Raise (KeyError ("Keyword '" ++ key ++ "' not found."))
  end.

(** [np.arange(n, dtype=...)]: 0, 1, ..., below [n]; for a float [n] there
    are ceil(n) of them. *)
Definition arange (n : card) : list R :=
  match n with
  | IntCard k => map INR (seq 0 (Z.to_nat k))
  | FloatCard x => map INR (seq 0 (Z.to_nat (1 - up (- x))))
  end.

Section FileService.
Variable fits_open : string -> result (list hdu).

Definition extract_spectrum (plate mjd fiber : Z) (run2d : string) (release : Z)
    (sas : string) : result (list R * list R * list R * list R) :=
  (let vopath := spplate_path sas run2d plate mjd in
   hdulist <- fits_open vopath ;;
   hdu0 <- list_item hdulist 0 ;;
   let hdr := header hdu0 in
   hdu0' <- list_item hdulist 0 ;;
   flux <- index_row (data hdu0') (fiber - 1) ;;
   hdu1 <- list_item hdulist 1 ;;
   ivar <- index_row (data hdu1) (fiber - 1) ;;
   hdu6 <- list_item hdulist 6 ;;
   sky <- index_row (data hdu6) (fiber - 1) ;;
   coeff0 <- header_item hdr "COEFF0" ;;
   coeff1 <- header_item hdr "COEFF1" ;;
   naxis1 <- header_item hdr "NAXIS1" ;;
   let loglam := map (fun k => card_value coeff0 + card_value coeff1 * k)%R
                     (arange naxis1) in
   let wavelength := map (fun x => Rpower 10.0 x) loglam in
   Ok (wavelength, flux, ivar, sky))%result.

Definition extract_frame (run camcol field : Z) (band sas : string)
    : result (list (list R)) :=
  (let fm := frame_path sas run camcol band field in
   hdulist <- fits_open fm ;;
   hdu0 <- list_item hdulist 0 ;;
   Ok (data hdu0))%result.

End FileService.

(** No character of [s] is [c]. *)
Fixpoint no_char (c : ascii) (s : string) : bool :=
  match s with
  | EmptyString => true
  | String a s' => negb (Ascii.eqb a c) && no_char c s'
  end.

(** The sign and the padded digits that [format_d] prints. *)
Definition pad (width : nat) (i : Decimal.int) : Decimal.int :=
  match i with
  | Decimal.Pos d => Decimal.Pos (zfill (width - Decimal.nb_digits d) d)
  | Decimal.Neg d => Decimal.Neg (zfill (width - 1 - Decimal.nb_digits d) d)
  end.

(** The wavelength of pixel [k] on the grid of the header. *)
Definition pixel_wavelength (coeff0 coeff1 : R) (k : nat) : R :=
  Rpower 10 (coeff0 + coeff1 * INR k).

(** A file of seven HDUs, each with the same three spectra of two pixels,
    and a service that has this one file only. *)
Definition sample_hdu : hdu :=
  mkHDU [("NAXIS1", IntCard 2); ("COEFF0", FloatCard 3.5); ("COEFF1", FloatCard 0.0001)]
        [[1; 2]; [3; 4]; [5; 6]]%R.
Definition sample_file : list hdu := repeat sample_hdu 7.
Definition sample_service (path : string) : result (list hdu) :=
  if String.eqb path "sdss_dr14://sdss/spectro/redux/v5_10_0/4202/spPlate-4202-55445.fits"
  then Ok sample_file
  else Raise (ValueError "no such file").

End Spectro.

(** ** The LOWZ selection

    The cell of the notebook that flags the LOWZ targets, as a function of
    the three arrays it reads.  The arrays meet in elementwise operations, so
    numpy's broadcasting of one-dimensional arrays is written out: equal
    lengths, or one operand of length one, or a ValueError. *)

Module Selection.
Import Photometry.
Local Open Scope string_scope.
Local Open Scope R_scope.
Local Open Scope result_scope.





End Selection.

(** ** A sample of the photometric catalog *)

Module Samples.
Import Photometry.
Local Open Scope string_scope.
Local Open Scope R_scope.

(** One object with the model fluxes and the extinctions of the five bands:
    flux 1 nanomaggie and extinction 0.1 magnitude in each band. *)
Definition sweep_sample : ndarray :=
  mkArray (model_flux_fields ++
           ["extinction_u"; "extinction_g"; "extinction_r"; "extinction_i"; "extinction_z"])%list
          [fun name => if String.prefix "extinction_" name then 0.1 else 1].

(** One object with the psf fluxes of the five bands. *)
Definition psf_sample : ndarray :=
  mkArray ["psfflux_u"; "psfflux_g"; "psfflux_r"; "psfflux_i"; "psfflux_z"] [fun _ => 1].

End Samples.

(** ** Order of catalog rows *)

Module RowOrder.
Import ObjID.
Local Open Scope Z_scope.

(** Rows compared field by field, in the order rerun, run, camcol, field, id. *)
Definition lex_lt (r1 r2 : CatalogRow) : Prop :=
  row_rerun r1 < row_rerun r2 \/
  (row_rerun r1 = row_rerun r2 /\
   (row_run r1 < row_run r2 \/
    (row_run r1 = row_run r2 /\
     (row_camcol r1 < row_camcol r2 \/
      (row_camcol r1 = row_camcol r2 /\
       (row_field r1 < row_field r2 \/
        (row_field r1 = row_field r2 /\ row_id r1 < row_id r2))))))).

End RowOrder.

(** ** The magnitude formula in binary64

    The elementwise expression of [asinh_mag] and [asinh_image] on IEEE 754
    double-precision numbers.  The products, the quotient and the sum are the
    machine operations; [np.arcsinh] and [np.log] are whatever functions on
    doubles the library provides, and are parameters. *)

Module Binary64Mag.
Local Open Scope float_scope.
#[local] Set Warnings "-inexact-float".

Section Library.
Variables np_arcsinh np_log : float -> float.

Definition asinh_formula (C b flux : float) : float :=
  C * (np_arcsinh ((flux * 1.0e-9) / (2.0 * b)) + np_log b).

(** The magnitude of one flux, with [C = -2.5/np.log(10.0)]. *)
Definition magnitude (b flux : float) : float :=
  asinh_formula (-2.5 / np_log 10.0) b flux.

End Library.

(** Two neighbouring doubles just below 2 nanomaggies. *)
Definition flux_lo : float := 0x1.ffffffffffffep+0.
Definition flux_hi : float := 0x1.fffffffffffffp+0.

End Binary64Mag.

(** * Properties *)

(** ** Columns *)

Lemma map2_map_map {A B C D : Type} (f : B -> C -> D) (g : A -> B) (h : A -> C) (l : list A) :
  map2 f (map g l) (map h l) = map (fun x => f (g x) (h x)) l.
Proof.
  induction l as [|x l IH]; simpl; [reflexivity | now rewrite IH].
Qed.


(** ** The ObjID encoder *)

Module ObjIDFacts.
Import ObjID.
Local Open Scope string_scope.
Local Open Scope Z_scope.

Ltac pow2 :=
  change (2 ^ 64) with 18446744073709551616 in *;
  change (2 ^ 63) with 9223372036854775808 in *;
  change (2 ^ 59) with 576460752303423488 in *;
  change (2 ^ 48) with 281474976710656 in *;
  change (2 ^ 32) with 4294967296 in *;
  change (2 ^ 29) with 536870912 in *;
  change (2 ^ 28) with 268435456 in *;
  change (2 ^ 16) with 65536 in *;
  change (2 ^ 12) with 4096 in *;
  change (2 ^ 11) with 2048 in *;
  change (2 ^ 4) with 16 in *;
  change (2 ^ 3) with 8 in *;
  change (2 ^ 0) with 1 in *.

Lemma uint64_small (x : Z) : 0 <= x < 2 ^ 64 -> uint64 x = x.
Proof. intros H. unfold uint64. now apply Z.mod_small. Qed.

Lemma uint64_negative (x : Z) : - 2 ^ 63 <= x < 0 -> uint64 x = x + 2 ^ 64.
Proof.
  intros H. unfold uint64. symmetry.
  apply (Z.mod_unique x (2 ^ 64) (-1)); pow2; lia.
Qed.

(** A wrapped column element passes an upper-bound check exactly when the
    element itself is in range. *)
Lemma check_upper (x hi : Z) :
  np_integer x -> 0 < hi <= 2 ^ 63 ->
  ((uint64 x <? 0) || (uint64 x >=? hi) = false <-> 0 <= x < hi).
Proof.
  unfold np_integer. intros Hx Hhi.
  rewrite orb_false_iff, Z.ltb_ge, Z.geb_leb, Z.leb_gt.
  destruct (Z_lt_ge_dec x 0) as [Hneg | Hpos].
  - rewrite uint64_negative by lia. pow2. lia.
  - rewrite uint64_small by lia. lia.
Qed.

Lemma check_camcol (x : Z) :
  np_integer x ->
  ((uint64 x <? 1) || (uint64 x >? 6) = false <-> 1 <= x <= 6).
Proof.
  unfold np_integer. intros Hx.
  rewrite orb_false_iff, Z.ltb_ge, Z.gtb_ltb, Z.ltb_ge.
  destruct (Z_lt_ge_dec x 0) as [Hneg | Hpos].
  - rewrite uint64_negative by lia. pow2. lia.
  - rewrite uint64_small by lia. lia.
Qed.

Lemma any_map_false {A : Type} (cond : Z -> bool) (f : A -> Z) (P : A -> Prop) (l : list A) :
  (forall a, In a l -> (cond (f a) = false <-> P a)) ->
  (any cond (map f l) = false <-> Forall P l).
Proof.
  unfold any. induction l as [|a l IH]; intros H; simpl.
  - split; [constructor | reflexivity].
  - rewrite orb_false_iff, IH by (intros; apply H; now right).
    rewrite (H a) by now left.
    split; [intros [? ?]; now constructor | intros HF; inversion HF; now split].
Qed.

Lemma skyversion_ok (data : list CatalogRow) :
  any (fun x => (x <? 0) || (x >=? 16)) (map (fun _ => uint64 (0 + 2)) data) = false.
Proof. induction data; simpl; auto. Qed.

(** The whole column-wise expression is the row-wise one. *)
Lemma objid_columns (data : list CatalogRow) :
  col_or (col_or (col_or (col_or (col_or (col_or
    (col_shl (map (fun _ => uint64 (0 + 2)) data) 59)
    (col_shl (map (fun r => uint64 (row_rerun r)) data) 48))
    (col_shl (map (fun r => uint64 (row_run r)) data) 32))
    (col_shl (map (fun r => uint64 (row_camcol r)) data) 29))
    (col_shl (map (fun _ => uint64 0) data) 28))
    (col_shl (map (fun r => uint64 (row_field r)) data) 16))
    (map (fun r => uint64 (row_id r)) data)
  = map objid_row data.
Proof.
  unfold col_or, col_shl. rewrite !map_map.
  repeat rewrite map2_map_map. reflexivity.
Qed.

(** Bitwise or of a multiple of [2^n] with a number below [2^n] is their sum. *)
Lemma lor_add (a lo n : Z) :
  0 <= n -> a mod 2 ^ n = 0 -> 0 <= lo < 2 ^ n -> Z.lor a lo = a + lo.
Proof.
  intros Hn Ha Hlo.
  assert (Hland : Z.land a lo = 0).
  2:{ now rewrite <- Z.lxor_lor, Z.add_nocarry_lxor. }
  apply Z.bits_inj'. intros i Hi.
  rewrite Z.land_spec, Z.bits_0.
  destruct (Z_lt_ge_dec i n) as [Hlt | Hge].
  - rewrite <- (Z.mod_pow2_bits_low a n i) by lia. rewrite Ha, Z.bits_0. reflexivity.
  - rewrite <- (Z.mod_small lo (2 ^ n)) by assumption.
    rewrite Z.mod_pow2_bits_high by lia. apply andb_false_r.
Qed.

Lemma mod_zero (a n k : Z) : 0 < n -> a = k * n -> a mod n = 0.
Proof. intros Hn ->. now apply Z.mod_mul; lia. Qed.

Lemma objid_formula_sum (r : CatalogRow) : in_range r -> objid_formula r = objid_sum r.
Proof.
  unfold in_range, rerun_ok, run_ok, camcol_ok, field_ok, id_ok, objid_formula, objid_sum. intros (H1 & H2 & H3 & H4 & H5).
  rewrite !Z.shiftl_mul_pow2 by lia.
  rewrite (lor_add (2 * 2 ^ 59) _ 59); [ | lia | | pow2; lia ].
  2:{ apply (mod_zero _ _ 2); pow2; lia. }
  rewrite (lor_add _ (row_run r * 2 ^ 32) 48); [ | lia | | pow2; lia ].
  2:{ apply (mod_zero _ _ (2 * 2 ^ 11 + row_rerun r)); pow2; lia. }
  rewrite (lor_add _ (row_camcol r * 2 ^ 29) 32); [ | lia | | pow2; lia ].
  2:{ apply (mod_zero _ _ (2 * 2 ^ 27 + row_rerun r * 2 ^ 16 + row_run r)); pow2; lia. }
  rewrite (lor_add _ (row_field r * 2 ^ 16) 29); [ | lia | | pow2; lia ].
  2:{ apply (mod_zero _ _ (2 * 2 ^ 30 + row_rerun r * 2 ^ 19 + row_run r * 8 + row_camcol r));
      pow2; lia. }
  rewrite (lor_add _ (row_id r) 16); [ | lia | | pow2; lia ].
  2:{ apply (mod_zero _ _ (2 * 2 ^ 43 + row_rerun r * 2 ^ 32 + row_run r * 2 ^ 16
                           + row_camcol r * 2 ^ 13 + row_field r)); pow2; lia. }
  reflexivity.
Qed.

Lemma shl64_small (x n : Z) : 0 <= n -> 0 <= x * 2 ^ n < 2 ^ 64 -> shl64 x n = Z.shiftl x n.
Proof.
  intros Hn H. unfold shl64. rewrite Z.shiftl_mul_pow2 by assumption. now apply Z.mod_small.
Qed.

(** On rows within range no wrap-around happens: the value computed is the
    bit formula. *)
Lemma objid_row_formula (r : CatalogRow) : in_range r -> objid_row r = objid_formula r.
Proof.
  unfold in_range, rerun_ok, run_ok, camcol_ok, field_ok, id_ok, objid_row, objid_formula. intros (H1 & H2 & H3 & H4 & H5).
  rewrite !uint64_small by (pow2; lia).
  rewrite !shl64_small by (pow2; lia).
  change (Z.shiftl 0 28) with 0. rewrite Z.lor_0_r. reflexivity.
Qed.

Lemma bits_spec (x lo width : Z) :
  0 <= lo -> 0 <= width -> bits x lo width = (x / 2 ^ lo) mod 2 ^ width.
Proof.
  intros Hlo Hw. unfold bits. rewrite Z.land_ones by assumption.
  now rewrite Z.shiftr_div_pow2.
Qed.

Lemma objid_sum_layout (r : CatalogRow) : in_range r -> layout r (objid_sum r).
Proof.
  unfold in_range, rerun_ok, run_ok, camcol_ok, field_ok, id_ok, objid_sum. intros (H1 & H2 & H3 & H4 & H5).
  constructor; rewrite ?bits_spec, ?Z.testbit_false by lia; pow2;
    try (Z.div_mod_to_equations; lia).
Qed.

Lemma sdss_objid_unfold (data : list CatalogRow) :
  sdss_objid data =
  if any (fun x => (x <? 0) || (x >=? 2 ^ 11)) (map (fun r => uint64 (row_rerun r)) data) then
    Raise (ValueError "rerun values are out-of-bounds!")
  else if any (fun x => (x <? 0) || (x >=? 2 ^ 16)) (map (fun r => uint64 (row_run r)) data) then
    Raise (ValueError "run values are out-of-bounds!")
  else if any (fun x => (x <? 1) || (x >? 6)) (map (fun r => uint64 (row_camcol r)) data) then
    Raise (ValueError "camcol values are out-of-bounds!")
  else if any (fun x => (x <? 0) || (x >=? 2 ^ 12)) (map (fun r => uint64 (row_field r)) data) then
    Raise (ValueError "field values are out-of-bounds!")
  else if any (fun x => (x <? 0) || (x >=? 2 ^ 16)) (map (fun r => uint64 (row_id r)) data) then
    Raise (ValueError "id values are out-of-bounds!")
  else Ok (map objid_row data).
Proof.
  unfold sdss_objid. rewrite skyversion_ok, objid_columns. reflexivity.
Qed.

(** Each range check passes exactly when its whole column is in range. *)
Lemma column_checks (data : list CatalogRow) :
  Forall np_integer_row data ->
  (any (fun x => (x <? 0) || (x >=? 2 ^ 11)) (map (fun r => uint64 (row_rerun r)) data) = false
     <-> Forall rerun_ok data) /\
  (any (fun x => (x <? 0) || (x >=? 2 ^ 16)) (map (fun r => uint64 (row_run r)) data) = false
     <-> Forall run_ok data) /\
  (any (fun x => (x <? 1) || (x >? 6)) (map (fun r => uint64 (row_camcol r)) data) = false
     <-> Forall camcol_ok data) /\
  (any (fun x => (x <? 0) || (x >=? 2 ^ 12)) (map (fun r => uint64 (row_field r)) data) = false
     <-> Forall field_ok data) /\
  (any (fun x => (x <? 0) || (x >=? 2 ^ 16)) (map (fun r => uint64 (row_id r)) data) = false
     <-> Forall id_ok data).
Proof.
  intros Hint. rewrite Forall_forall in Hint.
  split; [ | split; [ | split; [ | split ] ] ];
    apply any_map_false; intros r Hr;
    destruct (Hint r Hr) as (I1 & I2 & I3 & I4 & I5);
    first [ now apply check_camcol | apply check_upper; [assumption | pow2; lia] ].
Qed.

Lemma in_range_np_integer (r : CatalogRow) : in_range r -> np_integer_row r.
Proof.
  unfold in_range, rerun_ok, run_ok, camcol_ok, field_ok, id_ok, np_integer_row, np_integer.
  pow2. lia.
Qed.

Lemma Forall_in_range (data : list CatalogRow) :
  Forall in_range data <->
  Forall rerun_ok data /\ Forall run_ok data /\ Forall camcol_ok data /\
  Forall field_ok data /\ Forall id_ok data.
Proof.
  unfold in_range. rewrite !Forall_forall. split.
  - intros H. split; [ | split; [ | split; [ | split ] ] ]; intros r Hr; apply (H r Hr).
  - intros (H1 & H2 & H3 & H4 & H5) r Hr.
    split; [ | split; [ | split; [ | split ] ] ]; auto.
Qed.

Lemma in_range_dec (r : CatalogRow) : {in_range r} + {~ in_range r}.
Proof.
  unfold in_range, rerun_ok, run_ok, camcol_ok, field_ok, id_ok.
  destruct (Z_le_dec 0 (row_rerun r)); [ | right; lia ].
  destruct (Z_lt_dec (row_rerun r) (2 ^ 11)); [ | right; lia ].
  destruct (Z_le_dec 0 (row_run r)); [ | right; lia ].
  destruct (Z_lt_dec (row_run r) (2 ^ 16)); [ | right; lia ].
  destruct (Z_le_dec 1 (row_camcol r)); [ | right; lia ].
  destruct (Z_le_dec (row_camcol r) 6); [ | right; lia ].
  destruct (Z_le_dec 0 (row_field r)); [ | right; lia ].
  destruct (Z_lt_dec (row_field r) (2 ^ 12)); [ | right; lia ].
  destruct (Z_le_dec 0 (row_id r)); [ | right; lia ].
  destruct (Z_lt_dec (row_id r) (2 ^ 16)); [ | right; lia ].
  left; lia.
Qed.

(** On a batch within range the encoder returns one identifier per row. *)
Lemma sdss_objid_ok (data : list CatalogRow) :
  Forall in_range data -> sdss_objid data = Ok (map objid_row data).
Proof.
  intros H.
  assert (Hint : Forall np_integer_row data).
  { eapply Forall_impl; [ | exact H ]. apply in_range_np_integer. }
  destruct (column_checks data Hint) as (C1 & C2 & C3 & C4 & C5).
  apply Forall_in_range in H. destruct H as (H1 & H2 & H3 & H4 & H5).
  rewrite sdss_objid_unfold.
  rewrite (proj2 C1 H1), (proj2 C2 H2), (proj2 C3 H3), (proj2 C4 H4), (proj2 C5 H5).
  reflexivity.
Qed.

(** C1. Round trip of the bit layout: on every batch whose rows are within the
    documented ranges, [sdss_objid] returns one identifier per row, and reading
    bits 48-58, 32-47, 29-31, 16-27 and 0-15 of it gives back rerun, run,
    camcol, field and id, while bit 63 is 0, bits 59-62 hold 2 and bit 28 is 0. *)
Theorem sdss_objid_roundtrip (data : list CatalogRow) :
  Forall in_range data ->
  exists ids, sdss_objid data = Ok ids /\ Forall2 layout data ids.
Proof.
  intros H. exists (map objid_row data). split; [now apply sdss_objid_ok | ].
  induction H as [|r data Hr H IH]; simpl; constructor; [ | exact IH ].
  rewrite objid_row_formula, objid_formula_sum by assumption.
  now apply objid_sum_layout.
Qed.

Lemma sdss_objid_roundtrip_witness :
  Forall in_range [mkRow 301 6122 1 13 1; mkRow 2047 65535 6 4095 65535] /\
  exists ids, sdss_objid [mkRow 301 6122 1 13 1; mkRow 2047 65535 6 4095 65535] = Ok ids
              /\ Forall2 layout [mkRow 301 6122 1 13 1; mkRow 2047 65535 6 4095 65535] ids.
Proof.
  assert (H : Forall in_range [mkRow 301 6122 1 13 1; mkRow 2047 65535 6 4095 65535]).
  { repeat constructor; simpl; lia. }
  split; [exact H | exact (sdss_objid_roundtrip _ H)].
Defined.

(** C3. The known example: the single row rerun=301, run=6122, camcol=1,
    field=13, id=1 encodes to (2 << 59) | (301 << 48) | (6122 << 32) |
    (1 << 29) | (13 << 16) | 1, which is 1237671766924263425. *)
Theorem sdss_objid_known_example :
  sdss_objid [mkRow 301 6122 1 13 1]
  = Ok [Z.lor (Z.lor (Z.lor (Z.lor (Z.lor (Z.shiftl 2 59) (Z.shiftl 301 48))
                 (Z.shiftl 6122 32)) (Z.shiftl 1 29)) (Z.shiftl 13 16)) 1]
  /\ sdss_objid [mkRow 301 6122 1 13 1] = Ok [1237671766924263425]
  /\ objid_formula (mkRow 301 6122 1 13 1) = 1237671766924263425.
Proof. repeat split; vm_compute; reflexivity. Qed.

(** The outcome of the encoder, read off the order of its checks. *)
Lemma sdss_objid_cases (data : list CatalogRow) :
  Forall np_integer_row data ->
  (~ Forall rerun_ok data /\
     sdss_objid data = Raise (ValueError "rerun values are out-of-bounds!")) \/
  (Forall rerun_ok data /\ ~ Forall run_ok data /\
     sdss_objid data = Raise (ValueError "run values are out-of-bounds!")) \/
  (Forall rerun_ok data /\ Forall run_ok data /\ ~ Forall camcol_ok data /\
     sdss_objid data = Raise (ValueError "camcol values are out-of-bounds!")) \/
  (Forall rerun_ok data /\ Forall run_ok data /\ Forall camcol_ok data /\
   ~ Forall field_ok data /\
     sdss_objid data = Raise (ValueError "field values are out-of-bounds!")) \/
  (Forall rerun_ok data /\ Forall run_ok data /\ Forall camcol_ok data /\
   Forall field_ok data /\ ~ Forall id_ok data /\
     sdss_objid data = Raise (ValueError "id values are out-of-bounds!")) \/
  (Forall in_range data /\ sdss_objid data = Ok (map objid_row data)).
Proof.
  intros Hint.
  rewrite sdss_objid_unfold, Forall_in_range.
  destruct (any _ (map (fun r => uint64 (row_rerun r)) data)) eqn:E1;
    [ | destruct (any _ (map (fun r => uint64 (row_run r)) data)) eqn:E2;
    [ | destruct (any _ (map (fun r => uint64 (row_camcol r)) data)) eqn:E3;
    [ | destruct (any _ (map (fun r => uint64 (row_field r)) data)) eqn:E4;
    [ | destruct (any _ (map (fun r => uint64 (row_id r)) data)) eqn:E5 ] ] ] ];
    destruct (column_checks data Hint) as (C1 & C2 & C3 & C4 & C5);
    try (apply C1 in E1); try (apply C2 in E2); try (apply C3 in E3);
    try (apply C4 in E4); try (apply C5 in E5).
  - left. split; [ | reflexivity ]. intros H. apply C1 in H. congruence.
  - right; left. repeat split; trivial. intros H. apply C2 in H. congruence.
  - do 2 right; left. repeat split; trivial. intros H. apply C3 in H. congruence.
  - do 3 right; left. repeat split; trivial. intros H. apply C4 in H. congruence.
  - do 4 right; left. repeat split; trivial. intros H. apply C5 in H. congruence.
  - do 5 right. repeat split; trivial.
Qed.

Lemma not_Forall_in_range (data : list CatalogRow) :
  ~ Forall in_range data <-> Exists (fun r => ~ in_range r) data.
Proof.
  split.
  - apply neg_Forall_Exists_neg. apply in_range_dec.
  - intros HE HF. apply Exists_exists in HE. destruct HE as (r & Hr & Hn).
    rewrite Forall_forall in HF. exact (Hn (HF r Hr)).
Qed.

Lemma range_rejection_examples :
  sdss_objid [mkRow 301 6122 0 13 1] = Raise (ValueError "camcol values are out-of-bounds!") /\
  sdss_objid [mkRow 301 6122 7 13 1] = Raise (ValueError "camcol values are out-of-bounds!") /\
  sdss_objid [mkRow 301 (2 ^ 16) 1 13 1] = Raise (ValueError "run values are out-of-bounds!") /\
  sdss_objid [mkRow 2047 65535 6 4095 65535] = Ok [1729382256104964095] /\
  objid_formula (mkRow 2047 65535 6 4095 65535) = 1729382256104964095.
Proof. repeat split; vm_compute; reflexivity. Qed.

(** C2. On integer input, [sdss_objid] raises exactly when some row violates a
    documented range; the error names the first column (in the order rerun,
    run, camcol, field, id) that has an element out of bounds; the result is
    either an error or the identifiers of all rows, never a part of them.
    camcol = 0, camcol = 7 and run = 2^16 are rejected, and the all-maximum
    row is encoded as the value of the bit formula, 1729382256104964095. *)
Theorem sdss_objid_range_check :
  (forall data : list CatalogRow,
     Forall np_integer_row data ->
     ((exists e, sdss_objid data = Raise e) <-> Exists (fun r => ~ in_range r) data) /\
     ((exists ids, sdss_objid data = Ok ids /\ List.length ids = List.length data)
        <-> Forall in_range data) /\
     (sdss_objid data = Raise (ValueError "rerun values are out-of-bounds!")
        <-> ~ Forall rerun_ok data) /\
     (sdss_objid data = Raise (ValueError "run values are out-of-bounds!")
        <-> Forall rerun_ok data /\ ~ Forall run_ok data) /\
     (sdss_objid data = Raise (ValueError "camcol values are out-of-bounds!")
        <-> Forall rerun_ok data /\ Forall run_ok data /\ ~ Forall camcol_ok data) /\
     (sdss_objid data = Raise (ValueError "field values are out-of-bounds!")
        <-> Forall rerun_ok data /\ Forall run_ok data /\ Forall camcol_ok data /\
            ~ Forall field_ok data) /\
     (sdss_objid data = Raise (ValueError "id values are out-of-bounds!")
        <-> Forall rerun_ok data /\ Forall run_ok data /\ Forall camcol_ok data /\
            Forall field_ok data /\ ~ Forall id_ok data) /\
     (forall e, sdss_objid data = Raise e ->
        e = ValueError "rerun values are out-of-bounds!" \/
        e = ValueError "run values are out-of-bounds!" \/
        e = ValueError "camcol values are out-of-bounds!" \/
        e = ValueError "field values are out-of-bounds!" \/
        e = ValueError "id values are out-of-bounds!")) /\
  sdss_objid [mkRow 301 6122 0 13 1] = Raise (ValueError "camcol values are out-of-bounds!") /\
  sdss_objid [mkRow 301 6122 7 13 1] = Raise (ValueError "camcol values are out-of-bounds!") /\
  sdss_objid [mkRow 301 (2 ^ 16) 1 13 1] = Raise (ValueError "run values are out-of-bounds!") /\
  sdss_objid [mkRow 2047 65535 6 4095 65535] = Ok [1729382256104964095] /\
  objid_formula (mkRow 2047 65535 6 4095 65535) = 1729382256104964095.
Proof.
  split; [ | exact range_rejection_examples ].
  intros data Hint.
  rewrite <- not_Forall_in_range.
  pose proof (Forall_in_range data) as HF.
  unfold Raise, Ok in *.
  destruct (sdss_objid_cases data Hint)
    as [(N & E) | [(A1 & N & E) | [(A1 & A2 & N & E) | [(A1 & A2 & A3 & N & E) |
       [(A1 & A2 & A3 & A4 & N & E) | (A & E)]]]]];
    unfold Raise, Ok in E; rewrite E.
  6:{ repeat split; try congruence; try tauto.
      - intros [e He]; discriminate.
      - intros _. exists (map objid_row data). split; [reflexivity | apply length_map]. }
  all: repeat split; try congruence; try tauto; try discriminate;
       try (intros _; tauto); try (eexists; reflexivity);
       try (intros (ids & Hids & _); discriminate);
       try (intros e He; injection He as <-; tauto).
Qed.

Lemma sdss_objid_range_check_witness :
  Forall np_integer_row [mkRow 301 6122 1 13 1; mkRow 301 6122 (-1) 13 1] /\
  ((exists e, sdss_objid [mkRow 301 6122 1 13 1; mkRow 301 6122 (-1) 13 1] = Raise e) <->
   Exists (fun r => ~ in_range r) [mkRow 301 6122 1 13 1; mkRow 301 6122 (-1) 13 1]) /\
  sdss_objid [mkRow 301 6122 1 13 1; mkRow 301 6122 (-1) 13 1]
  = Raise (ValueError "camcol values are out-of-bounds!").
Proof.
  assert (H : Forall np_integer_row [mkRow 301 6122 1 13 1; mkRow 301 6122 (-1) 13 1]).
  { repeat constructor; simpl; lia. }
  split; [exact H | ].
  split; [ exact (proj1 (proj1 sdss_objid_range_check _ H)) | ].
  vm_compute. reflexivity.
Defined.

End ObjIDFacts.

(** ** Structured arrays *)

Module ArrayFacts.
Import Photometry.
Local Open Scope string_scope.
Local Open Scope R_scope.

Lemma getitem_ok (a : ndarray) (name : string) :
  has_field a name = true -> getitem a name = Ok (map (fun rec => rec name) (records a)).
Proof. unfold getitem. now intros ->. Qed.

Lemma getitem_raise (a : ndarray) (name : string) :
  has_field a name = false -> getitem a name = Raise (NoField name).
Proof. unfold getitem. now intros ->. Qed.

Lemma getitem_Ok_inv (a : ndarray) (name : string) (col : list R) :
  getitem a name = Ok col ->
  has_field a name = true /\ col = map (fun rec => rec name) (records a).
Proof.
  unfold getitem, Ok, Raise. destruct (has_field a name); intros H;
    [ injection H as <-; now split | discriminate ].
Qed.

Lemma getitem_length (a : ndarray) (name : string) (col : list R) :
  getitem a name = Ok col -> List.length col = shape a.
Proof.
  intros H. apply getitem_Ok_inv in H. destruct H as [_ ->]. apply length_map.
Qed.

Lemma setitem_ok (a : ndarray) (name : string) (col : list R) :
  has_field a name = true -> setitem a name col = Ok (set_column a name col).
Proof. unfold setitem. now intros ->. Qed.

Lemma has_field_set (a : ndarray) (name : string) (col : list R) (name' : string) :
  has_field (set_column a name col) name' = has_field a name'.
Proof. reflexivity. Qed.

Lemma map2_length {A B C : Type} (f : A -> B -> C) (l : list A) (l' : list B) :
  List.length l' = List.length l -> List.length (map2 f l l') = List.length l.
Proof.
  revert l'. induction l as [|x l IH]; intros [|y l'] H; simpl in *;
    try reflexivity; try discriminate.
  f_equal. apply IH. now injection H.
Qed.

Lemma shape_set (a : ndarray) (name : string) (col : list R) :
  List.length col = shape a -> shape (set_column a name col) = shape a.
Proof. intros H. unfold shape, set_column; simpl. now apply map2_length. Qed.

Lemma column_set_same (recs : list (string -> R)) (name : string) (col : list R) :
  List.length col = List.length recs ->
  map (fun rec => rec name) (map2 (fun rec v => update rec name v) recs col) = col.
Proof.
  revert col. induction recs as [|rec recs IH]; intros [|v col] H; simpl in *;
    try reflexivity; try discriminate.
  unfold update at 1. rewrite String.eqb_refl. f_equal. apply IH. now injection H.
Qed.

Lemma column_set_other (recs : list (string -> R)) (name name' : string) (col : list R) :
  name' <> name -> List.length col = List.length recs ->
  map (fun rec => rec name') (map2 (fun rec v => update rec name v) recs col)
  = map (fun rec => rec name') recs.
Proof.
  intros Hne. revert col. induction recs as [|rec recs IH]; intros [|v col] H; simpl in *;
    try reflexivity; try discriminate.
  unfold update at 1. apply String.eqb_neq in Hne. rewrite Hne.
  f_equal. apply IH. now injection H.
Qed.

Lemma getitem_set_same (a : ndarray) (name : string) (col : list R) :
  has_field a name = true -> List.length col = shape a ->
  getitem (set_column a name col) name = Ok col.
Proof.
  intros Hf Hl. rewrite getitem_ok by (now rewrite has_field_set).
  unfold set_column; simpl. now rewrite column_set_same.
Qed.

Lemma getitem_set_other (a : ndarray) (name name' : string) (col : list R) :
  name' <> name -> List.length col = shape a ->
  getitem (set_column a name col) name' = getitem a name'.
Proof.
  intros Hne Hl. unfold getitem. rewrite has_field_set.
  destruct (has_field a name'); [ | reflexivity ].
  unfold set_column; simpl. now rewrite column_set_other.
Qed.

Lemma has_field_In (a : ndarray) (name : string) :
  has_field a name = true <-> In name (fields a).
Proof.
  unfold has_field. rewrite existsb_exists. split.
  - intros (x & Hx & E). apply String.eqb_eq in E. now subst.
  - intros H. exists name. split; [assumption | apply String.eqb_refl].
Qed.

End ArrayFacts.

(** ** The asinh magnitudes *)

Module AsinhFacts.
Import Photometry ArrayFacts.
Local Open Scope string_scope.
Local Open Scope R_scope.

Lemma append_inj (s a b : string) : (s ++ a = s ++ b)%string -> a = b.
Proof.
  induction s as [|c s IH]; simpl; intros H; [assumption | ].
  injection H as H. now apply IH.
Qed.

Lemma mag_name_inj (magtype band band' : string) :
  mag_name magtype band = mag_name magtype band' -> band = band'.
Proof. unfold mag_name. intros H. now do 2 apply append_inj in H. Qed.

Lemma existsb_eqb_In (name : string) (names : list string) :
  existsb (String.eqb name) names = true <-> In name names.
Proof.
  rewrite existsb_exists. split.
  - intros (x & Hx & E). apply String.eqb_eq in E. now subst.
  - intros H. exists name. split; [assumption | apply String.eqb_refl].
Qed.

Lemma nodupb_NoDup (names : list string) : nodupb names = true <-> NoDup names.
Proof.
  induction names as [|n t IH]; simpl.
  - split; [constructor | reflexivity].
  - rewrite andb_true_iff, negb_true_iff, IH. split.
    + intros [Hn Ht]. constructor; [ | assumption ].
      intros Hin. apply existsb_eqb_In in Hin. congruence.
    + intros H. inversion H as [|? ? Hn Ht]; subst. split; [ | assumption ].
      destruct (existsb (String.eqb n) t) eqn:E; [ | reflexivity ].
      apply existsb_eqb_In in E. contradiction.
Qed.

Lemma nodupb_mag_names (magtype : string) (names : list string) :
  nodupb names = true -> nodupb (map (mag_name magtype) names) = true.
Proof.
  rewrite !nodupb_NoDup. intros H. induction H as [|n t Hn Ht IH]; simpl; constructor.
  - intros Hin. apply in_map_iff in Hin. destruct Hin as (n' & E & Hn').
    apply mag_name_inj in E. now subst.
  - exact IH.
Qed.

Lemma one_row_Ok_iff (values : list R) (names : list string) (b : list (string * R)) :
  one_row values names = Ok b <->
  nodupb names = true /\ List.length values = List.length names /\ b = combine names values.
Proof.
  unfold one_row, mk_dtype, bind, Ok, Raise.
  destruct (nodupb names); simpl.
  - destruct (Nat.eqb (List.length values) (List.length names)) eqn:E.
    + apply Nat.eqb_eq in E. split.
      * intros H. injection H as <-. now repeat split.
      * intros (_ & _ & ->). reflexivity.
    + apply Nat.eqb_neq in E. split; [discriminate | intros (_ & H & _); contradiction].
  - split; [discriminate | intros (H & _); discriminate].
Qed.

Lemma lookup_combine_In (band : string) (names : list string) (values : list R) :
  In band names -> List.length values = List.length names ->
  exists v, lookup band (combine names values) = Some v /\ In v values.
Proof.
  revert values. induction names as [|n t IH]; intros [|v values] Hin Hlen; simpl in *;
    try contradiction; try discriminate.
  destruct (String.eqb band n) eqn:E.
  - exists v. split; [reflexivity | now left].
  - destruct Hin as [-> | Hin]; [ rewrite String.eqb_refl in E; discriminate | ].
    destruct (IH values Hin) as (w & Hw & Hw'); [ now injection Hlen | ].
    exists w. split; [assumption | now right].
Qed.

(** The value a band receives is the one at its own position in [bands]. *)
Lemma lookup_combine_nth (names : list string) (values : list R) (i : nat) (band : string) (v : R) :
  NoDup names -> nth_error names i = Some band -> nth_error values i = Some v ->
  lookup band (combine names values) = Some v.
Proof.
  intros Hnd. revert values i. induction Hnd as [|n t Hn Ht IH]; intros values i Hb Hv.
  - destruct i; discriminate.
  - destruct values as [|w values]; [ destruct i; discriminate | ].
    destruct i as [|i]; simpl in *.
    + injection Hb as ->. injection Hv as ->. now rewrite String.eqb_refl.
    + destruct (String.eqb band n) eqn:E.
      * apply String.eqb_eq in E. subst. apply nth_error_In in Hb. contradiction.
      * now apply (IH values i).
Qed.

Lemma zeros_ok (n : nat) (names : list string) :
  nodupb names = true -> zeros n names = Ok (mkArray names (repeat (fun _ => 0) n)).
Proof. unfold zeros, mk_dtype. now intros ->. Qed.

(** The formula of the source and the formula as documented. *)
Lemma asinh_formula_mag_value (b_band flux ext : R) :
  asinh_formula (-2.5 / ln 10.0) b_band flux = mag_value b_band false flux ext.
Proof.
  unfold asinh_formula, mag_value.
  replace 10.0 with 10 by lra. replace 1.0e-9 with 1e-9 by lra.
  replace 2.0 with 2 by lra. reflexivity.
Qed.

Lemma row_value_mag_value (b_band : R) (deredden : bool) (flux ext : R) :
  row_value (-2.5 / ln 10.0) b_band deredden flux ext = mag_value b_band deredden flux ext.
Proof.
  unfold row_value. rewrite (asinh_formula_mag_value b_band flux ext).
  unfold mag_value. destruct deredden; reflexivity.
Qed.

Section Loop.
Variables (data : ndarray) (magtype : string) (deredden : bool) (C : R).
Variable b : list (string * R).

Let column (band : string) (b_band : R) : list R :=
  map (fun rec => row_value C b_band deredden
                    (rec (flux_name magtype band)) (rec (extinction_name band)))
      (records data).

(** One turn of the loop on a band whose columns are there. *)
Lemma asinh_mag_band_ok (band : string) (mag : ndarray) (b_band : R) :
  has_field data (flux_name magtype band) = true ->
  lookup band b = Some b_band ->
  has_field mag (mag_name magtype band) = true ->
  shape mag = shape data ->
  (deredden = true -> has_field data (extinction_name band) = true) ->
  exists mag',
    asinh_mag_band data magtype deredden C b band mag = Ok mag' /\
    fields mag' = fields mag /\
    shape mag' = shape data /\
    getitem mag' (mag_name magtype band) = Ok (column band b_band) /\
    (forall name, name <> mag_name magtype band -> getitem mag' name = getitem mag name).
Proof.
  intros Hflux Hb Hmag Hshape Hext.
  unfold asinh_mag_band, row_item. rewrite (getitem_ok _ _ Hflux), Hb. simpl.
  rewrite (setitem_ok _ _ _ Hmag). simpl.
  set (col := map (asinh_formula C b_band) _).
  assert (Hcol : List.length col = shape mag).
  { unfold col. rewrite !length_map. symmetry. exact Hshape. }
  subst column. unfold row_value. destruct deredden.
  - rewrite (getitem_set_same _ _ _ Hmag Hcol). simpl.
    rewrite (getitem_ok _ _ (Hext eq_refl)). simpl.
    rewrite setitem_ok by (now rewrite has_field_set).
    set (col' := map2 Rminus col _).
    assert (Hcol' : col' = map (fun rec => asinh_formula C b_band (rec (flux_name magtype band))
                                          - rec (extinction_name band)) (records data)).
    { unfold col', col. rewrite map_map. apply map2_map_map. }
    assert (Hlen' : List.length col' = shape (set_column mag (mag_name magtype band) col)).
    { rewrite shape_set by assumption. rewrite Hcol', length_map. symmetry. exact Hshape. }
    eexists. split; [reflexivity | ]. split; [reflexivity | ].
    split; [ rewrite !shape_set; assumption | ].
    split.
    + rewrite getitem_set_same; [ now rewrite Hcol' | now rewrite has_field_set | assumption ].
    + intros name Hne. now rewrite !getitem_set_other.
  - eexists. split; [reflexivity | ]. split; [reflexivity | ].
    split; [ rewrite shape_set; assumption | ].
    split.
    + rewrite getitem_set_same by assumption. unfold col. now rewrite map_map.
    + intros name Hne. now rewrite getitem_set_other.
Qed.

(** A turn that returns has found its columns. *)
Lemma asinh_mag_band_inv (band : string) (mag mag' : ndarray) :
  asinh_mag_band data magtype deredden C b band mag = Ok mag' ->
  has_field data (flux_name magtype band) = true /\
  (deredden = true -> has_field data (extinction_name band) = true).
Proof.
  unfold asinh_mag_band, getitem at 1.
  destruct (has_field data (flux_name magtype band)); [ | discriminate ].
  simpl. intros H. split; [reflexivity | ]. intros ->.
  destruct (row_item b band); [discriminate | ]. simpl in H.
  destruct (setitem mag _ _); [discriminate | ]. simpl in H.
  destruct (getitem n _); [discriminate | ]. simpl in H.
  unfold getitem in H.
  destruct (has_field data (extinction_name band)); [reflexivity | discriminate].
Qed.

Lemma for_each_ok (l : list string) :
  forall mag : ndarray,
  (forall band, In band l ->
     has_field data (flux_name magtype band) = true /\
     (exists b_band, lookup band b = Some b_band) /\
     has_field mag (mag_name magtype band) = true /\
     (deredden = true -> has_field data (extinction_name band) = true)) ->
  shape mag = shape data ->
  exists mag',
    for_each l (asinh_mag_band data magtype deredden C b) mag = Ok mag' /\
    fields mag' = fields mag /\
    shape mag' = shape data /\
    (forall band b_band, In band l -> lookup band b = Some b_band ->
       getitem mag' (mag_name magtype band) = Ok (column band b_band)) /\
    (forall name, (forall band, In band l -> name <> mag_name magtype band) ->
       getitem mag' name = getitem mag name).
Proof.
  induction l as [|band l IH]; intros mag Hl Hshape.
  - exists mag. simpl. repeat split; trivial. intros ? ? [].
  - destruct (Hl band (or_introl eq_refl)) as (Hflux & (b_band & Hb) & Hmag & Hext).
    destruct (asinh_mag_band_ok band mag b_band Hflux Hb Hmag Hshape Hext)
      as (mag1 & E1 & F1 & S1 & G1 & O1).
    destruct (IH mag1) as (mag' & E' & F' & S' & G' & O').
    { intros band' Hin. destruct (Hl band' (or_intror Hin)) as (A1 & A2 & A3 & A4).
      repeat split; trivial. unfold has_field in *. now rewrite F1. }
    { exact S1. }
    exists mag'. simpl. rewrite E1. simpl.
    split; [exact E' | ]. split; [congruence | ]. split; [exact S' | ]. split.
    + intros band' b' Hin Hb'.
      destruct (in_dec string_dec band' l) as [Hin' | Hnin]; [ now apply G' | ].
      destruct Hin as [<- | Hin]; [ | contradiction ].
      rewrite O'.
      * rewrite G1. congruence.
      * intros band'' Hin'' E. apply mag_name_inj in E. now subst.
    + intros name Hname. rewrite O' by (intros; apply Hname; now right).
      apply O1. apply Hname. now left.
Qed.

Lemma for_each_inv (l : list string) :
  forall mag mag' : ndarray,
  for_each l (asinh_mag_band data magtype deredden C b) mag = Ok mag' ->
  forall band, In band l ->
    has_field data (flux_name magtype band) = true /\
    (deredden = true -> has_field data (extinction_name band) = true).
Proof.
  induction l as [|band l IH]; intros mag mag' H band' Hin; [ destruct Hin | ].
  simpl in H.
  destruct (asinh_mag_band data magtype deredden C b band mag) as [e | mag1] eqn:E1;
    [discriminate | ].
  simpl in H. destruct Hin as [<- | Hin].
  - exact (asinh_mag_band_inv band mag mag1 E1).
  - exact (IH mag1 mag' H band' Hin).
Qed.

End Loop.

Lemma iter_bands_cons (c : ascii) (s : string) :
  iter_bands (String c s) = String c EmptyString :: iter_bands s.
Proof. reflexivity. Qed.

Lemma softening_length : List.length softening = 5%nat.
Proof. reflexivity. Qed.

Lemma shape_zeros (n : nat) (names : list string) :
  shape (mkArray names (repeat (fun _ => 0) n)) = n.
Proof. unfold shape; simpl. apply repeat_length. Qed.

(** Past its preamble, [asinh_mag] is its loop over the bands. *)
Lemma asinh_mag_unfold (data : ndarray) (magtype bands : string) (deredden : bool) :
  List.length (iter_bands bands) = 5%nat ->
  nodupb (iter_bands bands) = true ->
  (forall band, In band (iter_bands bands) ->
     has_field data (flux_name magtype band) = true) ->
  asinh_mag data magtype bands deredden
  = for_each (iter_bands bands)
      (asinh_mag_band data magtype deredden (-2.5 / ln 10.0)
         (combine (iter_bands bands) softening))
      (mkArray (map (mag_name magtype) (iter_bands bands))
               (repeat (fun _ => 0) (shape data))).
Proof.
  intros Hlen Hnd Hflux.
  destruct bands as [|c bands]; [discriminate | ].
  unfold asinh_mag. simpl first_band. cbv beta iota delta [bind Ok].
  rewrite getitem_ok by (apply Hflux; rewrite iter_bands_cons; now left).
  cbv beta iota zeta.
  replace (one_row softening (iter_bands (String c bands)))
    with (@inr exn _ (combine (iter_bands (String c bands)) softening)).
  2:{ symmetry. apply one_row_Ok_iff. rewrite softening_length. auto. }
  rewrite zeros_ok by (now apply nodupb_mag_names).
  reflexivity.
Qed.

Lemma preamble_fields (data : ndarray) (magtype bands : string) (band : string) :
  List.length (iter_bands bands) = 5%nat ->
  In band (iter_bands bands) ->
  (exists b_band, lookup band (combine (iter_bands bands) softening) = Some b_band) /\
  has_field (mkArray (map (mag_name magtype) (iter_bands bands))
                     (repeat (fun _ => 0) (shape data)))
            (mag_name magtype band) = true.
Proof.
  intros Hlen Hin. split.
  - destruct (lookup_combine_In band _ softening Hin) as (v & Hv & _);
      [ now rewrite softening_length | now exists v ].
  - apply has_field_In. cbn [fields]. now apply in_map.
Qed.

(** A valid call returns, and each band's column holds the magnitude computed
    with the value the one-row array [b] has under that band's name. *)
Lemma asinh_mag_ok (data : ndarray) (magtype bands : string) (deredden : bool) :
  valid_call data magtype bands deredden ->
  exists mag,
    asinh_mag data magtype bands deredden = Ok mag /\
    fields mag = map (mag_name magtype) (iter_bands bands) /\
    shape mag = shape data /\
    (forall band b_band,
       In band (iter_bands bands) ->
       lookup band (combine (iter_bands bands) softening) = Some b_band ->
       getitem mag (mag_name magtype band)
       = Ok (map (fun rec => mag_value b_band deredden (rec (flux_name magtype band))
                               (rec (extinction_name band))) (records data))).
Proof.
  intros (Hlen & Hnd & Hflux & Hext).
  rewrite asinh_mag_unfold by assumption.
  destruct (for_each_ok data magtype deredden (-2.5 / ln 10.0)
              (combine (iter_bands bands) softening) (iter_bands bands)
              (mkArray (map (mag_name magtype) (iter_bands bands))
                       (repeat (fun _ => 0) (shape data))))
    as (mag & E & F & S & G & _).
  - intros band Hin.
    destruct (preamble_fields data magtype bands band Hlen Hin) as (Hb & Hmag).
    split; [ now apply Hflux | ]. split; [exact Hb | ]. split; [exact Hmag | ].
    intros Hd. now apply Hext.
  - apply shape_zeros.
  - exists mag. split; [exact E | ]. split; [exact F | ]. split; [exact S | ].
    intros band b_band Hin Hb. rewrite (G band b_band Hin Hb). unfold Ok. f_equal.
    apply map_ext. intros rec. apply row_value_mag_value.
Qed.

(** Conversely a call that returns was a valid call. *)
Lemma asinh_mag_inv (data : ndarray) (magtype bands : string) (deredden : bool) (mag : ndarray) :
  asinh_mag data magtype bands deredden = Ok mag ->
  valid_call data magtype bands deredden.
Proof.
  unfold asinh_mag. intros H.
  destruct (first_band bands) as [e | band0]; [discriminate | ]. simpl in H.
  destruct (getitem data (flux_name magtype band0)) as [e | dt]; [discriminate | ]. simpl in H.
  destruct (one_row softening (iter_bands bands)) as [e | b] eqn:Eb; [discriminate | ].
  simpl in H. apply one_row_Ok_iff in Eb. destruct Eb as (Hnd & Hlen & _).
  destruct (zeros _ _) as [e | mag0]; [discriminate | ]. simpl in H.
  pose proof (for_each_inv _ _ _ _ _ _ _ _ H) as Hinv.
  split; [ now rewrite <- Hlen | ]. split; [exact Hnd | ].
  split; intros; now apply Hinv.
Qed.

Lemma softening_positive (b_band : R) : In b_band softening -> 0 < b_band.
Proof.
  unfold softening. simpl.
  intros [<- | [<- | [<- | [<- | [<- | []]]]]]; lra.
Qed.

Lemma ugriz_documented (band : string) (b_band : R) :
  lookup band (combine (iter_bands "ugriz") softening) = Some b_band ->
  documented_b band = Some b_band.
Proof.
  unfold documented_b. simpl.
  repeat (match goal with |- context [String.eqb band ?x] => destruct (String.eqb band x) end;
          [ trivial | ]).
  discriminate.
Qed.

(** With dereddening, the first band whose extinction column is absent stops
    the loop. *)
Lemma asinh_mag_band_missing_extinction (data : ndarray) (magtype : string) (C : R)
    (b : list (string * R)) (band : string) (mag : ndarray) (b_band : R) :
  has_field data (flux_name magtype band) = true ->
  lookup band b = Some b_band ->
  has_field mag (mag_name magtype band) = true ->
  shape mag = shape data ->
  has_field data (extinction_name band) = false ->
  asinh_mag_band data magtype true C b band mag = Raise (NoField (extinction_name band)).
Proof.
  intros Hflux Hb Hmag Hshape Hext.
  unfold asinh_mag_band, row_item. rewrite (getitem_ok _ _ Hflux), Hb. simpl.
  rewrite (setitem_ok _ _ _ Hmag). simpl.
  rewrite getitem_set_same;
    [ | assumption | rewrite !length_map; symmetry; exact Hshape ].
  simpl. now rewrite (getitem_raise _ _ Hext).
Qed.

Lemma for_each_missing_extinction (data : ndarray) (magtype : string) (C : R)
    (b : list (string * R)) (l : list string) :
  forall mag : ndarray,
  (forall band, In band l ->
     has_field data (flux_name magtype band) = true /\
     (exists b_band, lookup band b = Some b_band) /\
     has_field mag (mag_name magtype band) = true) ->
  shape mag = shape data ->
  (exists band, In band l /\ has_field data (extinction_name band) = false) ->
  exists band,
    In band l /\ has_field data (extinction_name band) = false /\
    for_each l (asinh_mag_band data magtype true C b) mag
    = Raise (NoField (extinction_name band)).
Proof.
  induction l as [|band l IH]; intros mag Hl Hshape (band' & Hin' & Hmiss).
  - destruct Hin'.
  - destruct (Hl band (or_introl eq_refl)) as (Hflux & (b_band & Hb) & Hmag).
    destruct (has_field data (extinction_name band)) eqn:Hext.
    + destruct (asinh_mag_band_ok data magtype true C b band mag b_band
                  Hflux Hb Hmag Hshape (fun _ => Hext))
        as (mag1 & E1 & F1 & S1 & _).
      destruct (IH mag1) as (band1 & Hin1 & Hmiss1 & E).
      * intros band'' Hin''. destruct (Hl band'' (or_intror Hin'')) as (A1 & A2 & A3).
        repeat split; trivial. unfold has_field in *. now rewrite F1.
      * exact S1.
      * exists band'. split; [ | assumption ].
        destruct Hin' as [<- | Hin']; [ congruence | assumption ].
      * exists band1. split; [now right | ]. split; [assumption | ].
        simpl. rewrite E1. exact E.
    + exists band. split; [now left | ]. split; [assumption | ].
      simpl. now rewrite (asinh_mag_band_missing_extinction _ _ _ _ _ _ b_band).
Qed.

(** Without dereddening only an absent flux column stops the loop. *)
Lemma for_each_no_deredden_raise (data : ndarray) (magtype : string) (C : R)
    (b : list (string * R)) (l : list string) (e : exn) :
  forall mag : ndarray,
  (forall band, In band l ->
     (exists b_band, lookup band b = Some b_band) /\
     has_field mag (mag_name magtype band) = true) ->
  shape mag = shape data ->
  for_each l (asinh_mag_band data magtype false C b) mag = Raise e ->
  exists band,
    In band l /\ has_field data (flux_name magtype band) = false /\
    e = NoField (flux_name magtype band).
Proof.
  induction l as [|band l IH]; intros mag Hl Hshape H; [discriminate | ].
  destruct (Hl band (or_introl eq_refl)) as ((b_band & Hb) & Hmag).
  simpl in H.
  destruct (has_field data (flux_name magtype band)) eqn:Hflux.
  - destruct (asinh_mag_band_ok data magtype false C b band mag b_band
                Hflux Hb Hmag Hshape) as (mag1 & E1 & F1 & S1 & _);
      [ discriminate | ].
    rewrite E1 in H. simpl in H.
    destruct (IH mag1) as (band1 & Hin1 & Hmiss1 & He); trivial.
    + intros band'' Hin''. destruct (Hl band'' (or_intror Hin'')) as (A1 & A2).
      split; trivial. unfold has_field in *. now rewrite F1.
    + exists band1. split; [now right | now split].
  - exists band. split; [now left | ]. split; [assumption | ].
    unfold asinh_mag_band in H. rewrite (getitem_raise _ _ Hflux) in H.
    simpl in H. unfold Raise in H. congruence.
Qed.

Lemma one_row_Raise (values : list R) (names : list string) (e : exn) :
  one_row values names = inl e -> exists msg, e = ValueError msg.
Proof.
  unfold one_row, mk_dtype, bind, Ok, Raise.
  destruct (nodupb names); simpl.
  - destruct (Nat.eqb (List.length values) (List.length names)); [discriminate | ].
    intros H. injection H as <-. eexists; reflexivity.
  - intros H. injection H as <-. eexists; reflexivity.
Qed.

(** The errors of a call without dereddening. *)
Lemma asinh_mag_no_deredden_errors (data : ndarray) (magtype bands : string) (e : exn) :
  asinh_mag data magtype bands false = Raise e ->
  e = IndexError \/
  (exists msg, e = ValueError msg) \/
  (exists band, has_field data (flux_name magtype band) = false /\
                e = NoField (flux_name magtype band)).
Proof.
  unfold asinh_mag. intros H.
  destruct bands as [|c bands]; [ left; simpl in H; unfold Raise in H; congruence | ].
  simpl first_band in H. cbv beta iota delta [bind Ok] in H.
  destruct (has_field data (flux_name magtype (String c EmptyString))) eqn:H0.
  2:{ right; right. exists (String c EmptyString). split; [assumption | ].
      rewrite (getitem_raise _ _ H0) in H. unfold Raise in H. congruence. }
  rewrite (getitem_ok _ _ H0) in H. cbv beta iota zeta delta [Ok] in H.
  destruct (one_row softening (iter_bands (String c bands))) as [e' | b] eqn:Eb.
  { right; left. apply one_row_Raise in Eb. destruct Eb as (msg & ->).
    exists msg. unfold Raise in H. congruence. }
  apply one_row_Ok_iff in Eb. destruct Eb as (Hnd & Hlen & ->).
  rewrite softening_length in Hlen. symmetry in Hlen.
  rewrite zeros_ok in H by (now apply nodupb_mag_names).
  cbv beta iota delta [Ok] in H.
  apply for_each_no_deredden_raise in H.
  - destruct H as (band & _ & Hmiss & ->). right; right. now exists band.
  - intros band Hin. now apply preamble_fields.
  - apply shape_zeros.
Qed.

Lemma ln_10_pos : 0 < ln 10.
Proof. rewrite <- ln_1. apply ln_increasing; lra. Qed.

Lemma C_negative : -2.5 / ln 10 < 0.
Proof.
  pose proof ln_10_pos as H. apply Rinv_0_lt_compat in H.
  unfold Rdiv. nra.
Qed.

Lemma mag_value_zero_flux (b_band ext : R) :
  mag_value b_band false 0 ext = (-2.5 / ln 10) * ln b_band.
Proof.
  unfold mag_value.
  replace (0 * 1e-9 / (2 * b_band)) with 0 by (unfold Rdiv; ring).
  rewrite arcsinh_0. now rewrite Rplus_0_l.
Qed.

Lemma mag_value_decreasing (b_band : R) (deredden : bool) (f1 f2 ext : R) :
  0 < b_band -> f1 < f2 ->
  mag_value b_band deredden f2 ext < mag_value b_band deredden f1 ext.
Proof.
  intros Hb Hf. unfold mag_value.
  assert (Hx : f1 * 1e-9 / (2 * b_band) < f2 * 1e-9 / (2 * b_band)).
  { unfold Rdiv. apply Rmult_lt_compat_r.
    - apply Rinv_0_lt_compat. lra.
    - lra. }
  apply arcsinh_lt in Hx. pose proof C_negative as HC.
  destruct deredden; nra.
Qed.

Lemma valid_call_ugriz (data : ndarray) (magtype : string) (deredden : bool) :
  (forall band, In band (iter_bands "ugriz") ->
     has_field data (flux_name magtype band) = true) ->
  (deredden = true ->
   forall band, In band (iter_bands "ugriz") ->
     has_field data (extinction_name band) = true) ->
  valid_call data magtype "ugriz" deredden.
Proof. intros Hflux Hext. repeat split; assumption. Qed.

Lemma zero_fluxes_valid (bands : string) :
  List.length (iter_bands bands) = 5%nat -> nodupb (iter_bands bands) = true ->
  (forall band, In band (iter_bands bands) -> In band (iter_bands "ugriz")) ->
  valid_call zero_fluxes "model" bands false.
Proof.
  intros Hlen Hnd Hsub.
  split; [exact Hlen | ]. split; [exact Hnd | ]. split; [ | discriminate ].
  intros band Hin. apply Hsub in Hin. simpl in Hin.
  destruct Hin as [<- | [<- | [<- | [<- | [<- | []]]]]]; reflexivity.
Qed.

(** The formula of a call that returns: each requested band's column holds, row
    by row, (-2.5/ln 10) * (asinh(flux*1e-9 / (2*b)) + ln b), where b is the
    entry of the softening table under that band, less the row's extinction
    exactly when dereddening is requested; a row of zero flux gets
    (-2.5/ln 10) * ln b; and with the default bands 'ugriz' the entry of each
    band is its documented constant (1.2e-10 for 'r'). *)
Theorem asinh_mag_formula (data : ndarray) (magtype bands : string) (deredden : bool) :
  valid_call data magtype bands deredden ->
  exists b mag,
    one_row softening (iter_bands bands) = Ok b /\
    asinh_mag data magtype bands deredden = Ok mag /\
    shape mag = shape data /\
    forall band, In band (iter_bands bands) ->
      exists b_band,
        row_item b band = Ok b_band /\
        0 < b_band /\
        (bands = "ugriz" -> documented_b band = Some b_band) /\
        getitem mag (mag_name magtype band)
        = Ok (map (fun rec =>
                     let m := (-2.5 / ln 10) *
                              (arcsinh (rec (flux_name magtype band) * 1e-9 / (2 * b_band))
                               + ln b_band) in
                     if deredden then m - rec (extinction_name band) else m)
                  (records data)) /\
        (-2.5 / ln 10) * (arcsinh (0 * 1e-9 / (2 * b_band)) + ln b_band)
        = (-2.5 / ln 10) * ln b_band.
Proof.
  intros Hvalid.
  destruct (asinh_mag_ok data magtype bands deredden Hvalid) as (mag & E & _ & S & G).
  destruct Hvalid as (Hlen & Hnd & Hflux & Hext).
  exists (combine (iter_bands bands) softening), mag.
  split; [ apply one_row_Ok_iff; rewrite softening_length; auto | ].
  split; [exact E | ]. split; [exact S | ].
  intros band Hin.
  destruct (lookup_combine_In band _ softening Hin) as (b_band & Hb & Hsoft);
    [ now rewrite softening_length | ].
  exists b_band. unfold row_item. rewrite Hb.
  split; [reflexivity | ]. split; [ now apply softening_positive | ].
  split; [ intros ->; now apply ugriz_documented | ].
  split; [ exact (G band b_band Hin Hb) | ].
  exact (mag_value_zero_flux b_band 0).
Qed.

Lemma asinh_mag_formula_witness :
  valid_call zero_fluxes "model" "ugriz" false /\
  exists b mag,
    one_row softening (iter_bands "ugriz") = Ok b /\
    asinh_mag zero_fluxes "model" "ugriz" false = Ok mag /\
    shape mag = shape zero_fluxes /\
    forall band, In band (iter_bands "ugriz") ->
      exists b_band,
        row_item b band = Ok b_band /\
        0 < b_band /\
        ("ugriz" = "ugriz" -> documented_b band = Some b_band) /\
        getitem mag (mag_name "model" band)
        = Ok (map (fun rec =>
                     let m := (-2.5 / ln 10) *
                              (arcsinh (rec (flux_name "model" band) * 1e-9 / (2 * b_band))
                               + ln b_band) in
                     if false then m - rec (extinction_name band) else m)
                  (records zero_fluxes)) /\
        (-2.5 / ln 10) * (arcsinh (0 * 1e-9 / (2 * b_band)) + ln b_band)
        = (-2.5 / ln 10) * ln b_band.
Proof.
  assert (H : valid_call zero_fluxes "model" "ugriz" false).
  { apply zero_fluxes_valid; [reflexivity | reflexivity | trivial]. }
  split; [exact H | exact (asinh_mag_formula zero_fluxes "model" "ugriz" false H)].
Defined.

Lemma mag_value_nonincreasing (b_band : R) (deredden : bool) (f1 f2 ext : R) :
  0 < b_band -> f1 <= f2 ->
  mag_value b_band deredden f2 ext <= mag_value b_band deredden f1 ext.
Proof.
  intros Hb [Hlt | ->]; [ | apply Rle_refl ].
  left. now apply mag_value_decreasing.
Qed.

#[local] Set Warnings "-inexact-float".

(** C5, as the claim states it, fails in the arithmetic of the code: the two
    neighbouring doubles 0x1.ffffffffffffep+0 < 0x1.fffffffffffffp+0, taken as
    fluxes of band r (b = 1.2e-10), give the same double as argument of
    arcsinh, hence the same magnitude whatever [np.arcsinh] and [np.log]
    return: the larger flux does not get a strictly smaller magnitude. *)
Lemma asinh_magnitude_not_strict :
  PrimFloat.ltb Binary64Mag.flux_lo Binary64Mag.flux_hi = true /\
  forall np_arcsinh np_log : float -> float,
    Binary64Mag.magnitude np_arcsinh np_log 1.2e-10%float Binary64Mag.flux_hi
    = Binary64Mag.magnitude np_arcsinh np_log 1.2e-10%float Binary64Mag.flux_lo.
Proof. split; [reflexivity | intros np_arcsinh np_log; reflexivity]. Qed.

(** C5, amended. The magnitude never increases with the flux: within one
    call, for every band, if one row's flux is below or equal to another's
    (and, when dereddening, the extinctions are equal), then the row with the
    larger flux gets a magnitude that is smaller or equal; the fluxes are
    arbitrary, zero and negative included. *)
Theorem asinh_mag_nonincreasing (data : ndarray) (magtype bands : string)
    (deredden : bool) (mag : ndarray) (band : string) (k1 k2 : nat) (rec1 rec2 : string -> R) :
  asinh_mag data magtype bands deredden = Ok mag ->
  In band (iter_bands bands) ->
  nth_error (records data) k1 = Some rec1 ->
  nth_error (records data) k2 = Some rec2 ->
  rec1 (flux_name magtype band) <= rec2 (flux_name magtype band) ->
  (deredden = true -> rec1 (extinction_name band) = rec2 (extinction_name band)) ->
  exists col m1 m2,
    getitem mag (mag_name magtype band) = Ok col /\
    nth_error col k1 = Some m1 /\
    nth_error col k2 = Some m2 /\
    m2 <= m1.
Proof.
  intros E Hin H1 H2 Hle Hext.
  pose proof (asinh_mag_inv _ _ _ _ _ E) as Hvalid.
  destruct (asinh_mag_ok data magtype bands deredden Hvalid) as (mag' & E' & _ & _ & G).
  assert (mag' = mag) by (unfold Ok in *; congruence). subst mag'.
  destruct Hvalid as (Hlen & _).
  destruct (lookup_combine_In band _ softening Hin) as (b_band & Hb & Hsoft);
    [ now rewrite softening_length | ].
  apply softening_positive in Hsoft.
  eexists; exists (mag_value b_band deredden (rec1 (flux_name magtype band))
                             (rec1 (extinction_name band)));
    exists (mag_value b_band deredden (rec2 (flux_name magtype band))
                      (rec2 (extinction_name band))).
  split; [ exact (G band b_band Hin Hb) | ].
  split; [ rewrite nth_error_map, H1; reflexivity | ].
  split; [ rewrite nth_error_map, H2; reflexivity | ].
  destruct deredden.
  - rewrite (Hext eq_refl). now apply mag_value_nonincreasing.
  - pose proof (mag_value_nonincreasing b_band false _ _ 0 Hsoft Hle) as Hd.
    unfold mag_value in *. exact Hd.
Qed.

Lemma asinh_mag_nonincreasing_witness :
  exists mag,
    asinh_mag two_fluxes "model" "ugriz" false = Ok mag /\
    In "r" (iter_bands "ugriz") /\
    nth_error (records two_fluxes) 0 = Some (fun _ => 0) /\
    nth_error (records two_fluxes) 1 = Some (fun _ => 1) /\
    0 <= 1 /\
    (false = true -> 0 = 1) /\
    exists col m1 m2,
      getitem mag (mag_name "model" "r") = Ok col /\
      nth_error col 0 = Some m1 /\ nth_error col 1 = Some m2 /\ m2 <= m1.
Proof.
  eexists.
  assert (E : asinh_mag two_fluxes "model" "ugriz" false = Ok _) by reflexivity.
  assert (Hin : In "r" (iter_bands "ugriz")) by (simpl; tauto).
  assert (Hle : (fun _ : string => 0) (flux_name "model" "r")
                <= (fun _ : string => 1) (flux_name "model" "r")) by (simpl; lra).
  assert (Hext : false = true -> (fun _ : string => 0) (extinction_name "r")
                                 = (fun _ : string => 1) (extinction_name "r"))
    by discriminate.
  split; [exact E | ]. split; [exact Hin | ].
  split; [reflexivity | ]. split; [reflexivity | ].
  split; [exact Hle | ]. split; [exact Hext | ].
  exact (asinh_mag_nonincreasing two_fluxes "model" "ugriz" false _ "r" 0 1
           (fun _ => 0) (fun _ => 1) E Hin eq_refl eq_refl Hle Hext).
Defined.

(** In a call that returns, the band at position [i] of [bands] is given the
    [i]-th constant of the tuple, whatever the band is called. *)
Lemma asinh_mag_positional (data : ndarray) (magtype bands : string) (deredden : bool)
    (i : nat) (band : string) (b_i : R) :
  valid_call data magtype bands deredden ->
  nth_error (iter_bands bands) i = Some band ->
  nth_error softening i = Some b_i ->
  exists mag,
    asinh_mag data magtype bands deredden = Ok mag /\
    getitem mag (mag_name magtype band)
    = Ok (map (fun rec => mag_value b_i deredden (rec (flux_name magtype band))
                            (rec (extinction_name band))) (records data)).
Proof.
  intros Hvalid Hband Hb.
  destruct (asinh_mag_ok data magtype bands deredden Hvalid) as (mag & E & _ & _ & G).
  destruct Hvalid as (Hlen & Hnd & _).
  exists mag. split; [exact E | ].
  apply G; [ now apply nth_error_In in Hband | ].
  apply (lookup_combine_nth _ _ i); [ now apply nodupb_NoDup | assumption | assumption ].
Qed.

Lemma ln_softening_differ : (-2.5 / ln 10) * ln 1.4e-10 <> (-2.5 / ln 10) * ln 1.2e-10.
Proof.
  pose proof C_negative as HC.
  assert (H : ln 1.2e-10 < ln 1.4e-10) by (apply ln_increasing; lra).
  nra.
Qed.

(** C6. The softening parameter follows the position of the band in [bands],
    not its name: with bands='rgiuz' band r is computed with 1.4e-10 (the
    constant documented for u), so that a zero flux gives
    (-2.5/ln 10) * ln 1.4e-10 and not (-2.5/ln 10) * ln 1.2e-10; with the
    default 'ugriz' it is computed with 1.2e-10; and with bands='r' alone the
    call raises instead of returning a magnitude. *)
Theorem asinh_mag_softening_by_position :
  (exists mag,
     asinh_mag zero_fluxes "model" "rgiuz" false = Ok mag /\
     getitem mag "modelmag_r" = Ok [(-2.5 / ln 10) * ln 1.4e-10]) /\
  (-2.5 / ln 10) * ln 1.4e-10 <> (-2.5 / ln 10) * ln 1.2e-10 /\
  (exists mag,
     asinh_mag zero_fluxes "model" "ugriz" false = Ok mag /\
     getitem mag "modelmag_r" = Ok [(-2.5 / ln 10) * ln 1.2e-10]) /\
  asinh_mag zero_fluxes "model" "r" false
  = Raise (ValueError "could not assign tuple to structure") /\
  documented_b "r" = Some 1.2e-10.
Proof.
  split; [ | split; [ exact ln_softening_differ | split; [ | split; reflexivity ] ] ].
  - destruct (asinh_mag_positional zero_fluxes "model" "rgiuz" false 0 "r" 1.4e-10)
      as (mag & E & G); try reflexivity.
    { apply zero_fluxes_valid; [reflexivity | reflexivity | simpl; tauto]. }
    exists mag. split; [exact E | ].
    change "modelmag_r" with (mag_name "model" "r"). rewrite G.
    unfold zero_fluxes. cbn [records map]. now rewrite mag_value_zero_flux.
  - destruct (asinh_mag_positional zero_fluxes "model" "ugriz" false 2 "r" 1.2e-10)
      as (mag & E & G); try reflexivity.
    { apply zero_fluxes_valid; [reflexivity | reflexivity | trivial]. }
    exists mag. split; [exact E | ].
    change "modelmag_r" with (mag_name "model" "r"). rewrite G.
    unfold zero_fluxes. cbn [records map]. now rewrite mag_value_zero_flux.
Qed.

Lemma arcsinh_argument_positive (y : R) : 0 < y + R_sqrt.sqrt (y ^ 2 + 1).
Proof.
  assert (H : Rabs y < R_sqrt.sqrt (y ^ 2 + 1)).
  { rewrite <- (sqrt_pow2 (Rabs y)) by apply Rabs_pos.
    apply sqrt_lt_1_alt. split; [apply pow2_ge_0 | ].
    rewrite pow2_abs. lra. }
  pose proof (Rle_abs (- y)) as H'. rewrite Rabs_Ropp in H'. lra.
Qed.

(** The softened logarithm in closed form. *)
Lemma softened_log (x b : R) :
  0 < b ->
  arcsinh (x / (2 * b)) + ln b = ln (x / 2 + R_sqrt.sqrt (x ^ 2 / 4 + b ^ 2)).
Proof.
  intros Hb. unfold arcsinh.
  rewrite <- ln_mult; [ | apply arcsinh_argument_positive | assumption ].
  f_equal.
  rewrite Rmult_plus_distr_r.
  replace (x / (2 * b) * b) with (x / 2) by (field; lra).
  f_equal.
  assert (E : R_sqrt.sqrt (b ^ 2) = b) by (apply sqrt_pow2; lra).
  replace (R_sqrt.sqrt ((x / (2 * b)) ^ 2 + 1) * b)
    with (R_sqrt.sqrt ((x / (2 * b)) ^ 2 + 1) * R_sqrt.sqrt (b ^ 2)) by (now rewrite E).
  rewrite <- sqrt_mult_alt.
  - f_equal. field. lra.
  - pose proof (pow2_ge_0 (x / (2 * b))). lra.
Qed.

(** At every flux a larger softening parameter gives a smaller magnitude:
    the parameter a band is computed with always shows in the result. *)
Lemma mag_value_softening (b1 b2 flux ext : R) (deredden : bool) :
  0 < b1 -> b1 < b2 ->
  mag_value b2 deredden flux ext < mag_value b1 deredden flux ext.
Proof.
  intros H1 H2. unfold mag_value.
  assert (Hs : arcsinh (flux * 1e-9 / (2 * b1)) + ln b1
               < arcsinh (flux * 1e-9 / (2 * b2)) + ln b2).
  { rewrite !softened_log by lra.
    assert (Hq : R_sqrt.sqrt ((flux * 1e-9) ^ 2 / 4 + b1 ^ 2)
                 < R_sqrt.sqrt ((flux * 1e-9) ^ 2 / 4 + b2 ^ 2)).
    { apply sqrt_lt_1_alt. pose proof (pow2_ge_0 (flux * 1e-9)). split; nra. }
    apply ln_increasing; [ | lra ].
    replace ((flux * 1e-9) ^ 2 / 4 + b1 ^ 2)
      with ((flux * 1e-9 / 2) ^ 2 + b1 ^ 2) by field.
    assert (Habs : Rabs (flux * 1e-9 / 2)
                   < R_sqrt.sqrt ((flux * 1e-9 / 2) ^ 2 + b1 ^ 2)).
    { rewrite <- (sqrt_pow2 (Rabs (flux * 1e-9 / 2))) by apply Rabs_pos.
      apply sqrt_lt_1_alt. split; [apply pow2_ge_0 | ]. rewrite pow2_abs. nra. }
    pose proof (Rle_abs (- (flux * 1e-9 / 2))) as H'. rewrite Rabs_Ropp in H'. lra. }
  pose proof C_negative as HC.
  destruct deredden; nra.
Qed.

(** C4. The formula is applied, but not always with the band's own
    parameter: on two objects of flux 0 and 1 nanomaggie, the call with
    bands='rgiuz' returns for band r the magnitudes of the formula with
    b = 1.4e-10, the constant of band u, and each of them differs from what
    the formula gives with the parameter documented for r, b = 1.2e-10. *)
Theorem asinh_mag_formula_other_band :
  let formula := fun b flux : R =>
    (-2.5 / ln 10) * (arcsinh (flux * 1e-9 / (2 * b)) + ln b) in
  valid_call two_fluxes "model" "rgiuz" false /\
  (exists mag,
     asinh_mag two_fluxes "model" "rgiuz" false = Ok mag /\
     getitem mag "modelmag_r" = Ok [formula 1.4e-10 0; formula 1.4e-10 1]) /\
  documented_b "r" = Some 1.2e-10 /\
  formula 1.4e-10 0 <> formula 1.2e-10 0 /\
  formula 1.4e-10 1 <> formula 1.2e-10 1.
Proof.
  intros formula.
  assert (Hvalid : valid_call two_fluxes "model" "rgiuz" false).
  { split; [reflexivity | ]. split; [reflexivity | ]. split; [ | discriminate ].
    intros band Hin. simpl in Hin.
    destruct Hin as [<- | [<- | [<- | [<- | [<- | []]]]]]; reflexivity. }
  assert (Hdiff : forall flux, formula 1.4e-10 flux <> formula 1.2e-10 flux).
  { intros flux.
    pose proof (mag_value_softening 1.2e-10 1.4e-10 flux 0 false) as H.
    unfold mag_value in H. unfold formula. lra. }
  split; [exact Hvalid | ]. split; [ | split; [reflexivity | split; apply Hdiff] ].
  destruct (asinh_mag_positional two_fluxes "model" "rgiuz" false 0 "r" 1.4e-10 Hvalid)
    as (mag & E & G); try reflexivity.
  exists mag. split; [exact E | ].
  change "modelmag_r" with (mag_name "model" "r"). rewrite G. reflexivity.
Qed.

(** C9. With dereddening requested, a call on an input that lacks the
    extinction column of a requested band returns no array at all; when the
    flux columns and the bands are in order, the error is the absence of an
    extinction column that the input indeed lacks.  Without dereddening a call
    whose flux columns and bands are in order returns whatever extinction
    columns the input has or lacks, and the errors of any call are an
    IndexError, a ValueError or the absence of a flux column. *)
Theorem asinh_mag_missing_extinction (data : ndarray) (magtype bands : string) :
  ((exists band, In band (iter_bands bands) /\ has_field data (extinction_name band) = false) ->
   (exists e, asinh_mag data magtype bands true = Raise e) /\
   (valid_call data magtype bands false ->
    exists band,
      In band (iter_bands bands) /\ has_field data (extinction_name band) = false /\
      asinh_mag data magtype bands true = Raise (NoField (extinction_name band)))) /\
  (valid_call data magtype bands false ->
   exists mag, asinh_mag data magtype bands false = Ok mag /\ shape mag = shape data) /\
  (forall e, asinh_mag data magtype bands false = Raise e ->
     e = IndexError \/
     (exists msg, e = ValueError msg) \/
     (exists band, has_field data (flux_name magtype band) = false /\
                   e = NoField (flux_name magtype band))).
Proof.
  split; [ | split ].
  - intros (band & Hin & Hmiss). split.
    + destruct (asinh_mag data magtype bands true) as [e | mag] eqn:E; [ now exists e | ].
      apply asinh_mag_inv in E. destruct E as (_ & _ & _ & Hext).
      rewrite (Hext eq_refl band Hin) in Hmiss. discriminate.
    + intros (Hlen & Hnd & Hflux & _).
      rewrite asinh_mag_unfold by assumption.
      apply for_each_missing_extinction.
      * intros band' Hin'. split; [ now apply Hflux | now apply preamble_fields ].
      * apply shape_zeros.
      * now exists band.
  - intros Hvalid.
    destruct (asinh_mag_ok data magtype bands false Hvalid) as (mag & E & _ & S & _).
    now exists mag.
  - intros e. apply asinh_mag_no_deredden_errors.
Qed.

Lemma asinh_mag_missing_extinction_witness :
  (exists band, In band (iter_bands "ugriz") /\
                has_field zero_fluxes (extinction_name band) = false) /\
  valid_call zero_fluxes "model" "ugriz" false /\
  (exists e, asinh_mag zero_fluxes "model" "ugriz" true = Raise e) /\
  (exists band,
     In band (iter_bands "ugriz") /\ has_field zero_fluxes (extinction_name band) = false /\
     asinh_mag zero_fluxes "model" "ugriz" true = Raise (NoField (extinction_name band))) /\
  (exists mag, asinh_mag zero_fluxes "model" "ugriz" false = Ok mag /\
               shape mag = shape zero_fluxes).
Proof.
  assert (Hmiss : exists band, In band (iter_bands "ugriz") /\
                               has_field zero_fluxes (extinction_name band) = false).
  { exists "u". split; [ simpl; tauto | reflexivity ]. }
  assert (Hvalid : valid_call zero_fluxes "model" "ugriz" false).
  { apply zero_fluxes_valid; [reflexivity | reflexivity | trivial]. }
  destruct (asinh_mag_missing_extinction zero_fluxes "model" "ugriz") as (A & B & _).
  destruct (A Hmiss) as (A1 & A2).
  split; [exact Hmiss | ]. split; [exact Hvalid | ]. split; [exact A1 | ].
  split; [exact (A2 Hvalid) | exact (B Hvalid)].
Defined.

Lemma asinh_image_ugriz (image : list R) (band : string) (b_band : R) :
  lookup band (combine (iter_bands "ugriz") softening) = Some b_band ->
  asinh_image image band = Ok (map (fun x => mag_value b_band false x 0) image).
Proof.
  intros H. unfold asinh_image, dict_item.
  change [("u", 1.4e-10); ("g", 0.9e-10); ("r", 1.2e-10); ("i", 1.8e-10); ("z", 7.4e-10)]
    with (combine (iter_bands "ugriz") softening).
  rewrite H. simpl. unfold Ok. f_equal. apply map_ext. intros x.
  apply (asinh_formula_mag_value b_band x 0).
Qed.

(** C10. For every band of 'ugriz' and every flux column, [asinh_image] on
    that column returns exactly the column that [asinh_mag], called with
    bands='ugriz' and deredden=False, returns for that band. *)
Theorem asinh_image_agrees_with_asinh_mag (data : ndarray) (magtype band : string)
    (mag : ndarray) :
  In band (iter_bands "ugriz") ->
  asinh_mag data magtype "ugriz" false = Ok mag ->
  exists flux col,
    getitem data (flux_name magtype band) = Ok flux /\
    asinh_image flux band = Ok col /\
    getitem mag (mag_name magtype band) = Ok col.
Proof.
  intros Hin E.
  pose proof (asinh_mag_inv _ _ _ _ _ E) as Hvalid.
  destruct (asinh_mag_ok data magtype "ugriz" false Hvalid) as (mag' & E' & _ & _ & G).
  assert (mag' = mag) by (unfold Ok in *; congruence). subst mag'.
  destruct Hvalid as (Hlen & _ & Hflux & _).
  destruct (lookup_combine_In band _ softening Hin) as (b_band & Hb & _);
    [ reflexivity | ].
  exists (map (fun rec => rec (flux_name magtype band)) (records data)).
  exists (map (fun rec => mag_value b_band false (rec (flux_name magtype band)) 0)
              (records data)).
  split; [ apply getitem_ok; now apply Hflux | ].
  split.
  - rewrite (asinh_image_ugriz _ band b_band Hb). now rewrite map_map.
  - rewrite (G band b_band Hin Hb). reflexivity.
Qed.

Lemma asinh_image_agrees_with_asinh_mag_witness :
  exists mag,
    In "r" (iter_bands "ugriz") /\
    asinh_mag two_fluxes "model" "ugriz" false = Ok mag /\
    exists flux col,
      getitem two_fluxes (flux_name "model" "r") = Ok flux /\
      asinh_image flux "r" = Ok col /\
      getitem mag (mag_name "model" "r") = Ok col.
Proof.
  eexists.
  assert (E : asinh_mag two_fluxes "model" "ugriz" false = Ok _) by reflexivity.
  assert (Hin : In "r" (iter_bands "ugriz")) by (simpl; tauto).
  split; [exact Hin | ]. split; [exact E | ].
  exact (asinh_image_agrees_with_asinh_mag two_fluxes "model" "r" _ Hin E).
Defined.

End AsinhFacts.

(** ** The auxiliary colours *)

Module AuxFacts.
Import Photometry ArrayFacts.
Local Open Scope string_scope.
Local Open Scope R_scope.

Section Columns.
Variable data : ndarray.

Let g := map (fun rec : string -> R => rec "modelmag_g") (records data).
Let r := map (fun rec : string -> R => rec "modelmag_r") (records data).
Let i := map (fun rec : string -> R => rec "modelmag_i") (records data).

Lemma c_par_column :
  col_add (col_scale 0.7 (col_sub g r)) (col_scale 1.2 (col_sub_const (col_sub r i) 0.18))
  = map (fun rec => c_par (rec "modelmag_g") (rec "modelmag_r") (rec "modelmag_i"))
        (records data).
Proof.
  subst g r i. unfold col_add, col_scale, col_sub, col_sub_const.
  repeat (rewrite map2_map_map || rewrite map_map). reflexivity.
Qed.

Lemma c_perp_column :
  col_sub_const (col_sub (col_sub r i) (col_div_const (col_sub g r) 4.0)) 0.18
  = map (fun rec => c_perp (rec "modelmag_g") (rec "modelmag_r") (rec "modelmag_i"))
        (records data).
Proof.
  subst g r i. unfold col_sub, col_sub_const, col_div_const.
  repeat (rewrite map2_map_map || rewrite map_map).
  apply map_ext. intros rec. unfold c_perp. lra.
Qed.

Lemma d_perp_column :
  col_sub (col_sub r i) (col_div_const (col_sub g r) 8.0)
  = map (fun rec => d_perp (rec "modelmag_g") (rec "modelmag_r") (rec "modelmag_i"))
        (records data).
Proof.
  subst g r i. unfold col_sub, col_div_const.
  repeat (rewrite map2_map_map || rewrite map_map).
  apply map_ext. intros rec. unfold d_perp. lra.
Qed.

End Columns.

(** A call whose four columns are there returns the three colour columns. *)
Lemma auxilliary_colors_ok (data : ndarray) (bands band0 : string) :
  first_band bands = Ok band0 ->
  has_field data ("modelmag_" ++ band0) = true ->
  has_field data "modelmag_g" = true ->
  has_field data "modelmag_r" = true ->
  has_field data "modelmag_i" = true ->
  exists aux,
    auxilliary_colors data bands = Ok aux /\
    fields aux = ["c_par"; "c_perp"; "d_perp"] /\
    shape aux = shape data /\
    getitem aux "c_par"
    = Ok (map (fun rec => c_par (rec "modelmag_g") (rec "modelmag_r") (rec "modelmag_i"))
              (records data)) /\
    getitem aux "c_perp"
    = Ok (map (fun rec => c_perp (rec "modelmag_g") (rec "modelmag_r") (rec "modelmag_i"))
              (records data)) /\
    getitem aux "d_perp"
    = Ok (map (fun rec => d_perp (rec "modelmag_g") (rec "modelmag_r") (rec "modelmag_i"))
              (records data)).
Proof.
  intros H0 Hu Hg Hr Hi.
  unfold auxilliary_colors. rewrite H0. cbv beta iota delta [bind Ok].
  rewrite (getitem_ok _ _ Hu), (getitem_ok _ _ Hg), (getitem_ok _ _ Hr), (getitem_ok _ _ Hi).
  cbv beta iota delta [Ok zeros mk_dtype bind]. simpl nodupb. cbv beta iota.
  rewrite c_par_column, c_perp_column, d_perp_column.
  set (aux0 := mkArray ["c_par"; "c_perp"; "d_perp"] (repeat (fun _ => 0) (shape data))).
  set (c1 := map (fun rec => c_par _ _ _) (records data)).
  set (c2 := map (fun rec => c_perp _ _ _) (records data)).
  set (c3 := map (fun rec => d_perp _ _ _) (records data)).
  assert (S0 : shape aux0 = shape data) by (unfold shape, aux0; simpl; apply repeat_length).
  assert (L1 : List.length c1 = shape aux0) by (unfold c1; now rewrite length_map).
  assert (L2 : List.length c2 = shape (set_column aux0 "c_par" c1)).
  { rewrite shape_set by assumption. unfold c2. now rewrite length_map. }
  assert (L3 : List.length c3 = shape (set_column (set_column aux0 "c_par" c1) "c_perp" c2)).
  { rewrite !shape_set by assumption. unfold c3. now rewrite length_map. }
  rewrite (setitem_ok aux0 "c_par") by reflexivity. cbv beta iota delta [Ok].
  rewrite setitem_ok by reflexivity. cbv beta iota delta [Ok].
  rewrite setitem_ok by reflexivity. cbv beta iota delta [Ok].
  eexists. split; [reflexivity | ]. split; [reflexivity | ].
  split; [ rewrite !shape_set; assumption | ].
  split; [ | split ].
  - rewrite !getitem_set_other by (assumption || discriminate).
    now apply getitem_set_same.
  - rewrite getitem_set_other by (assumption || discriminate).
    now apply getitem_set_same.
  - now apply getitem_set_same.
Qed.

(** The errors of a call: no first band, or one of the four columns absent. *)
Lemma auxilliary_colors_raise (data : ndarray) (bands : string) (e : exn) :
  auxilliary_colors data bands = Raise e ->
  (bands = EmptyString /\ e = IndexError) \/
  exists band0 name,
    first_band bands = Ok band0 /\
    In name ["modelmag_" ++ band0; "modelmag_g"; "modelmag_r"; "modelmag_i"] /\
    has_field data name = false /\
    e = NoField name.
Proof.
  intros H.
  destruct bands as [|c bands].
  { left. split; [reflexivity | ]. unfold auxilliary_colors in H. simpl in H.
    unfold Raise in H. congruence. }
  right. exists (String c EmptyString).
  destruct (has_field data ("modelmag_" ++ String c EmptyString)) eqn:Hu.
  2:{ exists ("modelmag_" ++ String c EmptyString). split; [reflexivity | ].
      split; [now left | ]. split; [assumption | ].
      unfold auxilliary_colors in H. simpl first_band in H.
      cbv beta iota delta [bind Ok] in H. rewrite (getitem_raise _ _ Hu) in H.
      unfold Raise in H. congruence. }
  destruct (has_field data "modelmag_g") eqn:Hg.
  2:{ exists "modelmag_g". split; [reflexivity | ]. split; [simpl; tauto | ].
      split; [assumption | ].
      unfold auxilliary_colors in H. simpl first_band in H.
      cbv beta iota delta [bind Ok] in H.
      rewrite (getitem_ok _ _ Hu), (getitem_raise _ _ Hg) in H.
      unfold Raise in H. simpl in H. congruence. }
  destruct (has_field data "modelmag_r") eqn:Hr.
  2:{ exists "modelmag_r". split; [reflexivity | ]. split; [simpl; tauto | ].
      split; [assumption | ].
      unfold auxilliary_colors in H. simpl first_band in H.
      cbv beta iota delta [bind Ok] in H.
      rewrite (getitem_ok _ _ Hu), (getitem_ok _ _ Hg), (getitem_raise _ _ Hr) in H.
      unfold Raise in H. simpl in H. congruence. }
  destruct (has_field data "modelmag_i") eqn:Hi.
  2:{ exists "modelmag_i". split; [reflexivity | ]. split; [simpl; tauto | ].
      split; [assumption | ].
      unfold auxilliary_colors in H. simpl first_band in H.
      cbv beta iota delta [bind Ok] in H.
      rewrite (getitem_ok _ _ Hu), (getitem_ok _ _ Hg), (getitem_ok _ _ Hr),
        (getitem_raise _ _ Hi) in H.
      unfold Raise in H. simpl in H. congruence. }
  destruct (auxilliary_colors_ok data (String c bands) (String c EmptyString))
    as (aux & E & _); trivial.
  rewrite E in H. discriminate.
Qed.

(** A call that returns has found its four columns. *)
Lemma auxilliary_colors_inv (data : ndarray) (bands : string) (aux : ndarray) :
  auxilliary_colors data bands = Ok aux ->
  exists band0,
    first_band bands = Ok band0 /\
    has_field data ("modelmag_" ++ band0) = true /\
    has_field data "modelmag_g" = true /\
    has_field data "modelmag_r" = true /\
    has_field data "modelmag_i" = true.
Proof.
  intros H.
  destruct (auxilliary_colors data bands) as [e | aux'] eqn:E; [discriminate | ].
  clear H.
  destruct bands as [|c bands]; [discriminate | ].
  exists (String c EmptyString). split; [reflexivity | ].
  assert (Hnot : forall name,
            In name ["modelmag_" ++ String c EmptyString;
                     "modelmag_g"; "modelmag_r"; "modelmag_i"] ->
            has_field data name = true).
  { intros name Hin. destruct (has_field data name) eqn:Hn; [reflexivity | exfalso].
    destruct (has_field data ("modelmag_" ++ String c EmptyString)) eqn:Hu,
             (has_field data "modelmag_g") eqn:Hg,
             (has_field data "modelmag_r") eqn:Hr,
             (has_field data "modelmag_i") eqn:Hi;
      try (destruct Hin as [<- | [<- | [<- | [<- | []]]]]; congruence);
      unfold auxilliary_colors in E; simpl first_band in E;
      cbv beta iota delta [bind Ok] in E;
      repeat (first [ rewrite (getitem_ok _ _ Hu) in E
                    | rewrite (getitem_raise _ _ Hu) in E
                    | rewrite (getitem_ok _ _ Hg) in E
                    | rewrite (getitem_raise _ _ Hg) in E
                    | rewrite (getitem_ok _ _ Hr) in E
                    | rewrite (getitem_raise _ _ Hr) in E
                    | rewrite (getitem_raise _ _ Hi) in E ]);
      simpl in E; discriminate. }
  repeat split; apply Hnot; simpl; tauto.
Qed.

Lemma sample_colors :
  c_par 20.0 19.0 18.5 = 1.084 /\ c_perp 20.0 19.0 18.5 = 0.07 /\ d_perp 20.0 19.0 18.5 = 0.375.
Proof. unfold c_par, c_perp, d_perp. repeat split; lra. Qed.

(** In double precision too the three colours of the sample object are the
    doubles written 1.084, 0.07 and 0.375. *)
#[local] Set Warnings "-inexact-float".
Lemma sample_colors_binary64 :
  Binary64.c_par 20.0%float 19.0%float 18.5%float = 1.084%float /\
  Binary64.c_perp 20.0%float 19.0%float 18.5%float = 0.07%float /\
  Binary64.d_perp 20.0%float 19.0%float 18.5%float = 0.375%float.
Proof. repeat split; reflexivity. Qed.

(** C7. On every input that has the columns the call reads, [auxilliary_colors]
    returns for every row c_par = 0.7*(g-r) + 1.2*(r-i-0.18),
    c_perp = (r-i) - (g-r)/4 - 0.18 and d_perp = (r-i) - (g-r)/8; for
    g=20.0, r=19.0, i=18.5 these are 1.084, 0.07 and 0.375. *)
Theorem auxilliary_colors_formulas :
  (forall (data : ndarray) (bands band0 : string),
     first_band bands = Ok band0 ->
     has_field data ("modelmag_" ++ band0) = true ->
     has_field data "modelmag_g" = true ->
     has_field data "modelmag_r" = true ->
     has_field data "modelmag_i" = true ->
     exists aux,
       auxilliary_colors data bands = Ok aux /\
       shape aux = shape data /\
       getitem aux "c_par"
       = Ok (map (fun rec => 0.7 * (rec "modelmag_g" - rec "modelmag_r")
                             + 1.2 * (rec "modelmag_r" - rec "modelmag_i" - 0.18))
                 (records data)) /\
       getitem aux "c_perp"
       = Ok (map (fun rec => (rec "modelmag_r" - rec "modelmag_i")
                             - (rec "modelmag_g" - rec "modelmag_r") / 4 - 0.18)
                 (records data)) /\
       getitem aux "d_perp"
       = Ok (map (fun rec => (rec "modelmag_r" - rec "modelmag_i")
                             - (rec "modelmag_g" - rec "modelmag_r") / 8)
                 (records data))) /\
  (exists aux,
     auxilliary_colors ugri_mags "ugriz" = Ok aux /\
     getitem aux "c_par" = Ok [1.084] /\
     getitem aux "c_perp" = Ok [0.07] /\
     getitem aux "d_perp" = Ok [0.375]).
Proof.
  split.
  - intros data bands band0 H0 Hu Hg Hr Hi.
    destruct (auxilliary_colors_ok data bands band0 H0 Hu Hg Hr Hi)
      as (aux & E & _ & S & G1 & G2 & G3).
    exists aux. repeat split; assumption.
  - destruct (auxilliary_colors_ok ugri_mags "ugriz" "u")
      as (aux & E & _ & _ & G1 & G2 & G3); try reflexivity.
    destruct sample_colors as (V1 & V2 & V3).
    exists aux. split; [exact E | ].
    rewrite G1, G2, G3. unfold ugri_mags. cbn [records map].
    change (sample_object "modelmag_g") with 20.0.
    change (sample_object "modelmag_r") with 19.0.
    change (sample_object "modelmag_i") with 18.5.
    rewrite V1, V2, V3. repeat split; reflexivity.
Qed.

Lemma auxilliary_colors_formulas_witness :
  first_band "ugriz" = Ok "u" /\
  has_field ugri_mags ("modelmag_" ++ "u") = true /\
  has_field ugri_mags "modelmag_g" = true /\
  has_field ugri_mags "modelmag_r" = true /\
  has_field ugri_mags "modelmag_i" = true /\
  exists aux,
    auxilliary_colors ugri_mags "ugriz" = Ok aux /\
    shape aux = shape ugri_mags /\
    getitem aux "c_par"
    = Ok (map (fun rec => 0.7 * (rec "modelmag_g" - rec "modelmag_r")
                          + 1.2 * (rec "modelmag_r" - rec "modelmag_i" - 0.18))
              (records ugri_mags)) /\
    getitem aux "c_perp"
    = Ok (map (fun rec => (rec "modelmag_r" - rec "modelmag_i")
                          - (rec "modelmag_g" - rec "modelmag_r") / 4 - 0.18)
              (records ugri_mags)) /\
    getitem aux "d_perp"
    = Ok (map (fun rec => (rec "modelmag_r" - rec "modelmag_i")
                          - (rec "modelmag_g" - rec "modelmag_r") / 8)
              (records ugri_mags)).
Proof.
  repeat (split; [reflexivity | ]).
  exact (proj1 auxilliary_colors_formulas ugri_mags "ugriz" "u"
           eq_refl eq_refl eq_refl eq_refl eq_refl).
Defined.

(** C8, as the claim states it, fails: an input that has the g, r and i
    magnitudes but no u magnitude is refused, because the default call reads
    the column of the first band of 'ugriz'. *)
Lemma auxilliary_colors_needs_first_band :
  has_field gri_mags "modelmag_g" = true /\
  has_field gri_mags "modelmag_r" = true /\
  has_field gri_mags "modelmag_i" = true /\
  auxilliary_colors gri_mags "ugriz" = Raise (NoField "modelmag_u") /\
  ~ (forall data : ndarray,
       has_field data "modelmag_g" = true ->
       has_field data "modelmag_r" = true ->
       has_field data "modelmag_i" = true ->
       exists aux, auxilliary_colors data "ugriz" = Ok aux).
Proof.
  repeat (split; [reflexivity | ]).
  intros H. destruct (H gri_mags) as (aux & E); try reflexivity.
  discriminate.
Qed.

(** C8, amended. The default call returns exactly when the input has the four
    fields modelmag_u, modelmag_g, modelmag_r and modelmag_i, and it raises
    exactly when one of the four is absent; the error is then the absence of
    one of these fields, which the input indeed lacks. *)
Theorem auxilliary_colors_required_fields (data : ndarray) :
  ((exists aux, auxilliary_colors data "ugriz" = Ok aux) <->
   has_field data "modelmag_u" = true /\ has_field data "modelmag_g" = true /\
   has_field data "modelmag_r" = true /\ has_field data "modelmag_i" = true) /\
  ((exists e, auxilliary_colors data "ugriz" = Raise e) <->
   has_field data "modelmag_u" = false \/ has_field data "modelmag_g" = false \/
   has_field data "modelmag_r" = false \/ has_field data "modelmag_i" = false) /\
  (forall e, auxilliary_colors data "ugriz" = Raise e ->
     exists name,
       In name ["modelmag_u"; "modelmag_g"; "modelmag_r"; "modelmag_i"] /\
       has_field data name = false /\
       e = NoField name).
Proof.
  assert (Hraise : forall e, auxilliary_colors data "ugriz" = Raise e ->
            exists name,
              In name ["modelmag_u"; "modelmag_g"; "modelmag_r"; "modelmag_i"] /\
              has_field data name = false /\ e = NoField name).
  { intros e H. apply auxilliary_colors_raise in H.
    destruct H as [[H _] | (band0 & name & H0 & Hin & Hmiss & ->)]; [discriminate | ].
    injection H0 as <-. now exists name. }
  assert (Hok : has_field data "modelmag_u" = true /\ has_field data "modelmag_g" = true /\
                has_field data "modelmag_r" = true /\ has_field data "modelmag_i" = true ->
                exists aux, auxilliary_colors data "ugriz" = Ok aux).
  { intros (Hu & Hg & Hr & Hi).
    destruct (auxilliary_colors_ok data "ugriz" "u" eq_refl Hu Hg Hr Hi) as (aux & E & _).
    now exists aux. }
  assert (Hinv : forall aux, auxilliary_colors data "ugriz" = Ok aux ->
            has_field data "modelmag_u" = true /\ has_field data "modelmag_g" = true /\
            has_field data "modelmag_r" = true /\ has_field data "modelmag_i" = true).
  { intros aux E. apply auxilliary_colors_inv in E.
    destruct E as (band0 & H0 & Hu & Hg & Hr & Hi). injection H0 as <-. auto. }
  split; [ | split; [ | exact Hraise ] ].
  - split; [ intros (aux & E); now apply (Hinv aux) | exact Hok ].
  - split.
    + intros (e & E). destruct (Hraise e E) as (name & Hin & Hmiss & _).
      simpl in Hin. destruct Hin as [<- | [<- | [<- | [<- | []]]]]; tauto.
    + intros Hmiss.
      destruct (auxilliary_colors data "ugriz") as [e | aux] eqn:E; [ now exists e | ].
      destruct (Hinv aux eq_refl) as (Hu & Hg & Hr & Hi).
      rewrite Hu, Hg, Hr, Hi in Hmiss.
      destruct Hmiss as [H | [H | [H | H]]]; discriminate.
Qed.

Lemma auxilliary_colors_required_fields_witness :
  auxilliary_colors gri_mags "ugriz" = Raise (NoField "modelmag_u") /\
  exists name,
    In name ["modelmag_u"; "modelmag_g"; "modelmag_r"; "modelmag_i"] /\
    has_field gri_mags name = false /\
    NoField "modelmag_u" = NoField name.
Proof.
  assert (E : auxilliary_colors gri_mags "ugriz" = Raise (NoField "modelmag_u"))
    by reflexivity.
  split; [exact E | ].
  exact (proj2 (proj2 (auxilliary_colors_required_fields gri_mags)) _ E).
Defined.

End AuxFacts.

(** ** More on the ObjID encoder *)

Module ObjIDMore.
Import ObjID RowOrder ObjIDFacts.
Local Open Scope Z_scope.

(** A batch of integer rows that is accepted is within range, and its
    identifiers are the rows' sums. *)
Lemma sdss_objid_Ok_inv (data : list CatalogRow) (ids : list Z) :
  Forall np_integer_row data ->
  sdss_objid data = Ok ids ->
  Forall in_range data /\ ids = map objid_sum data.
Proof.
  intros Hint E.
  destruct (sdss_objid_cases data Hint)
    as [(_ & E') | [(_ & _ & E') | [(_ & _ & _ & E') | [(_ & _ & _ & _ & E') |
       [(_ & _ & _ & _ & _ & E') | (A & E')]]]]];
    rewrite E' in E; try discriminate.
  split; [exact A | ].
  unfold Ok in E. injection E as <-.
  apply map_ext_in. intros r Hr. rewrite Forall_forall in A.
  now rewrite objid_row_formula, objid_formula_sum by (now apply A).
Qed.

Lemma objid_sum_inj (r1 r2 : CatalogRow) :
  in_range r1 -> in_range r2 -> objid_sum r1 = objid_sum r2 -> r1 = r2.
Proof.
  intros H1 H2 E.
  pose proof (objid_sum_layout r1 H1) as L1.
  pose proof (objid_sum_layout r2 H2) as L2.
  rewrite E in L1.
  destruct L1 as [_ _ _ A1 A2 A3 _ A4 A5], L2 as [_ _ _ B1 B2 B3 _ B4 B5].
  destruct r1, r2; simpl in *. congruence.
Qed.

(** X1. The identifier is unique: in accepted batches of integer rows, two rows
    that received the same identifier are the same row. *)
Theorem sdss_objid_unique (data1 data2 : list CatalogRow) (ids1 ids2 : list Z)
    (i j : nat) (r1 r2 : CatalogRow) (x : Z) :
  Forall np_integer_row data1 -> Forall np_integer_row data2 ->
  sdss_objid data1 = Ok ids1 -> sdss_objid data2 = Ok ids2 ->
  nth_error data1 i = Some r1 -> nth_error ids1 i = Some x ->
  nth_error data2 j = Some r2 -> nth_error ids2 j = Some x ->
  r1 = r2.
Proof.
  intros Hint1 Hint2 E1 E2 Hr1 Hx1 Hr2 Hx2.
  destruct (sdss_objid_Ok_inv data1 ids1 Hint1 E1) as (A1 & ->).
  destruct (sdss_objid_Ok_inv data2 ids2 Hint2 E2) as (A2 & ->).
  rewrite nth_error_map, Hr1 in Hx1. rewrite nth_error_map, Hr2 in Hx2.
  simpl in Hx1, Hx2. injection Hx1 as Hx1. injection Hx2 as Hx2.
  rewrite Forall_forall in A1, A2.
  apply objid_sum_inj.
  - apply A1. now apply nth_error_In in Hr1.
  - apply A2. now apply nth_error_In in Hr2.
  - congruence.
Qed.

Lemma sdss_objid_unique_witness :
  Forall np_integer_row [mkRow 301 6122 1 13 1; mkRow 301 6122 1 13 2] /\
  sdss_objid [mkRow 301 6122 1 13 1; mkRow 301 6122 1 13 2]
  = Ok [1237671766924263425; 1237671766924263426] /\
  mkRow 301 6122 1 13 2 = mkRow 301 6122 1 13 2.
Proof.
  assert (H : Forall np_integer_row [mkRow 301 6122 1 13 1; mkRow 301 6122 1 13 2]).
  { repeat constructor; simpl; lia. }
  assert (E : sdss_objid [mkRow 301 6122 1 13 1; mkRow 301 6122 1 13 2]
              = Ok [1237671766924263425; 1237671766924263426]).
  { vm_compute. reflexivity. }
  split; [exact H | ]. split; [exact E | ].
  exact (sdss_objid_unique _ _ _ _ 1 1 _ _ 1237671766924263426 H H E E
           eq_refl eq_refl eq_refl eq_refl).
Defined.

Lemma objid_sum_lex (r1 r2 : CatalogRow) :
  in_range r1 -> in_range r2 -> (objid_sum r1 < objid_sum r2 <-> lex_lt r1 r2).
Proof.
  unfold in_range, rerun_ok, run_ok, camcol_ok, field_ok, id_ok, objid_sum, lex_lt.
  intros (A1 & A2 & A3 & A4 & A5) (B1 & B2 & B3 & B4 & B5). pow2. lia.
Qed.

(** X2. Sorting by identifier is sorting by (rerun, run, camcol, field, id): in an
    accepted batch of integer rows, one identifier is below another exactly
    when its row comes first in that lexicographic order. *)
Theorem sdss_objid_order (data : list CatalogRow) (ids : list Z)
    (i j : nat) (r1 r2 : CatalogRow) (x1 x2 : Z) :
  Forall np_integer_row data ->
  sdss_objid data = Ok ids ->
  nth_error data i = Some r1 -> nth_error ids i = Some x1 ->
  nth_error data j = Some r2 -> nth_error ids j = Some x2 ->
  (x1 < x2 <-> lex_lt r1 r2).
Proof.
  intros Hint E Hr1 Hx1 Hr2 Hx2.
  destruct (sdss_objid_Ok_inv data ids Hint E) as (A & ->).
  rewrite nth_error_map, Hr1 in Hx1. rewrite nth_error_map, Hr2 in Hx2.
  simpl in Hx1, Hx2. injection Hx1 as <-. injection Hx2 as <-.
  rewrite Forall_forall in A.
  apply objid_sum_lex; apply A; eapply nth_error_In; eassumption.
Qed.

Lemma sdss_objid_order_witness :
  Forall np_integer_row [mkRow 301 6122 1 13 1; mkRow 301 6122 1 13 2] /\
  sdss_objid [mkRow 301 6122 1 13 1; mkRow 301 6122 1 13 2]
  = Ok [1237671766924263425; 1237671766924263426] /\
  (1237671766924263425 < 1237671766924263426
   <-> lex_lt (mkRow 301 6122 1 13 1) (mkRow 301 6122 1 13 2)).
Proof.
  assert (H : Forall np_integer_row [mkRow 301 6122 1 13 1; mkRow 301 6122 1 13 2]).
  { repeat constructor; simpl; lia. }
  assert (E : sdss_objid [mkRow 301 6122 1 13 1; mkRow 301 6122 1 13 2]
              = Ok [1237671766924263425; 1237671766924263426]).
  { vm_compute. reflexivity. }
  split; [exact H | ]. split; [exact E | ].
  exact (sdss_objid_order _ _ 0 1 _ _ _ _ H E eq_refl eq_refl eq_refl eq_refl).
Defined.

(** What acceptance means, with no assumption on the rows: all five checks
    pass on the wrapped columns. *)
Lemma sdss_objid_Ok_iff (data : list CatalogRow) (ids : list Z) :
  sdss_objid data = Ok ids <->
  any (fun x => (x <? 0) || (x >=? 2 ^ 11)) (map (fun r => uint64 (row_rerun r)) data) = false /\
  any (fun x => (x <? 0) || (x >=? 2 ^ 16)) (map (fun r => uint64 (row_run r)) data) = false /\
  any (fun x => (x <? 1) || (x >? 6)) (map (fun r => uint64 (row_camcol r)) data) = false /\
  any (fun x => (x <? 0) || (x >=? 2 ^ 12)) (map (fun r => uint64 (row_field r)) data) = false /\
  any (fun x => (x <? 0) || (x >=? 2 ^ 16)) (map (fun r => uint64 (row_id r)) data) = false /\
  ids = map objid_row data.
Proof.
  rewrite sdss_objid_unfold. unfold Ok, Raise.
  destruct (any _ (map (fun r => uint64 (row_rerun r)) data));
    [ split; [discriminate | intros (H & _); discriminate] | ].
  destruct (any _ (map (fun r => uint64 (row_run r)) data));
    [ split; [discriminate | intros (_ & H & _); discriminate] | ].
  destruct (any _ (map (fun r => uint64 (row_camcol r)) data));
    [ split; [discriminate | intros (_ & _ & H & _); discriminate] | ].
  destruct (any _ (map (fun r => uint64 (row_field r)) data));
    [ split; [discriminate | intros (_ & _ & _ & H & _); discriminate] | ].
  destruct (any _ (map (fun r => uint64 (row_id r)) data));
    [ split; [discriminate | intros (_ & _ & _ & _ & H & _); discriminate] | ].
  split.
  - intros H. injection H as <-. repeat split; reflexivity.
  - intros (_ & _ & _ & _ & _ & ->). reflexivity.
Qed.

Lemma any_app (cond : Z -> bool) (f : CatalogRow -> Z) (d1 d2 : list CatalogRow) :
  any cond (map f (d1 ++ d2)) = false <->
  any cond (map f d1) = false /\ any cond (map f d2) = false.
Proof. unfold any. rewrite map_app, existsb_app. apply orb_false_iff. Qed.

(** X3. Batches compose: the concatenation of two batches is accepted exactly
    when both are, and its identifiers are theirs, one after the other. *)
Theorem sdss_objid_app (data1 data2 : list CatalogRow) (ids : list Z) :
  sdss_objid (data1 ++ data2) = Ok ids <->
  exists ids1 ids2,
    sdss_objid data1 = Ok ids1 /\ sdss_objid data2 = Ok ids2 /\ ids = ids1 ++ ids2.
Proof.
  split.
  - intros H. apply sdss_objid_Ok_iff in H.
    rewrite !any_app, map_app in H.
    destruct H as ((A1 & B1) & (A2 & B2) & (A3 & B3) & (A4 & B4) & (A5 & B5) & ->).
    exists (map objid_row data1), (map objid_row data2).
    split; [ | split; [ | reflexivity ] ]; apply sdss_objid_Ok_iff; repeat split; assumption.
  - intros (ids1 & ids2 & H1 & H2 & ->).
    apply sdss_objid_Ok_iff in H1, H2.
    destruct H1 as (A1 & A2 & A3 & A4 & A5 & ->), H2 as (B1 & B2 & B3 & B4 & B5 & ->).
    apply sdss_objid_Ok_iff. rewrite !any_app, map_app. repeat split; assumption.
Qed.

Lemma sdss_objid_app_witness :
  sdss_objid ([mkRow 301 6122 1 13 1] ++ [mkRow 301 6122 1 13 2])
  = Ok [1237671766924263425; 1237671766924263426] /\
  exists ids1 ids2,
    sdss_objid [mkRow 301 6122 1 13 1] = Ok ids1 /\
    sdss_objid [mkRow 301 6122 1 13 2] = Ok ids2 /\
    [1237671766924263425; 1237671766924263426] = ids1 ++ ids2.
Proof.
  assert (E : sdss_objid ([mkRow 301 6122 1 13 1] ++ [mkRow 301 6122 1 13 2])
              = Ok [1237671766924263425; 1237671766924263426]).
  { vm_compute. reflexivity. }
  split; [exact E | ].
  exact (proj1 (sdss_objid_app _ _ _) E).
Defined.

(** X4. On integer columns, the outcome is the array of identifiers or one of
    the five range errors; the first check, on skyversion, can never fire, so
    its error is never raised. *)
Theorem sdss_objid_outcomes (data : list CatalogRow) :
  Forall np_integer_row data ->
  sdss_objid data = Ok (map objid_row data) \/
  sdss_objid data = Raise (ValueError "rerun values are out-of-bounds!") \/
  sdss_objid data = Raise (ValueError "run values are out-of-bounds!") \/
  sdss_objid data = Raise (ValueError "camcol values are out-of-bounds!") \/
  sdss_objid data = Raise (ValueError "field values are out-of-bounds!") \/
  sdss_objid data = Raise (ValueError "id values are out-of-bounds!").
Proof.
  intros Hint.
  destruct (sdss_objid_cases data Hint)
    as [(_ & E) | [(_ & _ & E) | [(_ & _ & _ & E) | [(_ & _ & _ & _ & E)
       | [(_ & _ & _ & _ & _ & E) | (_ & E)]]]]]; tauto.
Qed.

Lemma sdss_objid_outcomes_witness :
  Forall np_integer_row [mkRow 301 6122 7 13 1] /\
  (sdss_objid [mkRow 301 6122 7 13 1] = Ok (map objid_row [mkRow 301 6122 7 13 1]) \/
   sdss_objid [mkRow 301 6122 7 13 1] = Raise (ValueError "rerun values are out-of-bounds!") \/
   sdss_objid [mkRow 301 6122 7 13 1] = Raise (ValueError "run values are out-of-bounds!") \/
   sdss_objid [mkRow 301 6122 7 13 1] = Raise (ValueError "camcol values are out-of-bounds!") \/
   sdss_objid [mkRow 301 6122 7 13 1] = Raise (ValueError "field values are out-of-bounds!") \/
   sdss_objid [mkRow 301 6122 7 13 1] = Raise (ValueError "id values are out-of-bounds!")).
Proof.
  assert (Hint : Forall np_integer_row [mkRow 301 6122 7 13 1]).
  { repeat constructor; simpl; lia. }
  split; [exact Hint | exact (sdss_objid_outcomes _ Hint)].
Defined.

End ObjIDMore.

(** ** More on the asinh magnitudes *)

Module AsinhMore.
Import Photometry Samples ArrayFacts AsinhFacts.
Local Open Scope string_scope.
Local Open Scope R_scope.

(** X5. [asinh_mag] returns exactly on the calls with five distinct bands whose
    flux columns, and extinction columns when dereddening, are all there; the
    array it returns has one column per band, named after the band in the
    order of [bands], and as many rows as the input. *)
Theorem asinh_mag_returns_iff (data : ndarray) (magtype bands : string) (deredden : bool) :
  ((exists mag, asinh_mag data magtype bands deredden = Ok mag) <->
   valid_call data magtype bands deredden) /\
  (forall mag, asinh_mag data magtype bands deredden = Ok mag ->
     fields mag = map (mag_name magtype) (iter_bands bands) /\
     shape mag = shape data).
Proof.
  split.
  - split.
    + intros (mag & E). exact (asinh_mag_inv _ _ _ _ _ E).
    + intros Hvalid.
      destruct (asinh_mag_ok data magtype bands deredden Hvalid) as (mag & E & _).
      now exists mag.
  - intros mag E.
    destruct (asinh_mag_ok data magtype bands deredden (asinh_mag_inv _ _ _ _ _ E))
      as (mag' & E' & F & S & _).
    assert (mag' = mag) by (unfold Ok in *; congruence). subst mag'. now split.
Qed.

Lemma asinh_mag_returns_iff_witness :
  (exists mag, asinh_mag two_fluxes "model" "ugriz" false = Ok mag) /\
  valid_call two_fluxes "model" "ugriz" false.
Proof.
  assert (E : exists mag, asinh_mag two_fluxes "model" "ugriz" false = Ok mag)
    by (eexists; reflexivity).
  split; [exact E | ].
  exact (proj1 (proj1 (asinh_mag_returns_iff two_fluxes "model" "ugriz" false)) E).
Defined.

(** X6. The order of the failures before the loop: no band at all is an
    IndexError; otherwise an absent flux column of the first band is reported
    whatever the other bands are; otherwise a band string that does not
    consist of five distinct characters is a ValueError, whatever columns the
    input has and whether or not dereddening is requested. *)
Theorem asinh_mag_preamble_errors (data : ndarray) (magtype : string) (deredden : bool) :
  asinh_mag data magtype "" deredden = Raise IndexError /\
  (forall c rest,
     has_field data (flux_name magtype (String c "")) = false ->
     asinh_mag data magtype (String c rest) deredden
     = Raise (NoField (flux_name magtype (String c "")))) /\
  (forall c rest,
     has_field data (flux_name magtype (String c "")) = true ->
     List.length (iter_bands (String c rest)) <> 5%nat \/
     nodupb (iter_bands (String c rest)) = false ->
     exists msg, asinh_mag data magtype (String c rest) deredden = Raise (ValueError msg)).
Proof.
  split; [reflexivity | split].
  - intros c rest H0. unfold asinh_mag. simpl first_band.
    cbv beta iota delta [bind Ok]. now rewrite (getitem_raise _ _ H0).
  - intros c rest H0 Hbad. unfold asinh_mag. simpl first_band.
    cbv beta iota delta [bind Ok]. rewrite (getitem_ok _ _ H0).
    cbv beta iota zeta delta [Ok].
    destruct (one_row softening (iter_bands (String c rest))) as [e | b] eqn:Eb.
    + apply one_row_Raise in Eb. destruct Eb as (msg & ->). now exists msg.
    + apply one_row_Ok_iff in Eb. destruct Eb as (Hnd & Hlen & _).
      rewrite softening_length in Hlen.
      destruct Hbad as [Hbad | Hbad]; [ now symmetry in Hlen | congruence ].
Qed.

Lemma asinh_mag_preamble_errors_witness :
  has_field zero_fluxes (flux_name "psf" "u") = false /\
  asinh_mag zero_fluxes "psf" "ugriz" true = Raise (NoField "psfflux_u") /\
  has_field zero_fluxes (flux_name "model" "g") = true /\
  exists msg, asinh_mag zero_fluxes "model" "gri" false = Raise (ValueError msg).
Proof.
  pose proof (asinh_mag_preamble_errors zero_fluxes "psf" true) as (_ & A & _).
  pose proof (asinh_mag_preamble_errors zero_fluxes "model" false) as (_ & _ & B).
  split; [reflexivity | ].
  split; [ exact (A "u"%char "griz" eq_refl) | ].
  split; [reflexivity | ].
  apply (B "g"%char "ri" eq_refl). left. simpl. discriminate.
Defined.

(** X7. Dereddening is a subtraction after the fact: on a call that is valid with
    dereddening, each band's column is the column of the same call without
    dereddening, less the band's extinction column, row by row. *)
Theorem asinh_mag_deredden_subtracts (data : ndarray) (magtype bands : string) :
  valid_call data magtype bands true ->
  exists red plain,
    asinh_mag data magtype bands true = Ok red /\
    asinh_mag data magtype bands false = Ok plain /\
    forall band, In band (iter_bands bands) ->
      exists red_col plain_col ext,
        getitem red (mag_name magtype band) = Ok red_col /\
        getitem plain (mag_name magtype band) = Ok plain_col /\
        getitem data (extinction_name band) = Ok ext /\
        red_col = map2 Rminus plain_col ext.
Proof.
  intros Hvalid.
  assert (Hplain : valid_call data magtype bands false).
  { destruct Hvalid as (A & B & C & _). repeat split; trivial. discriminate. }
  destruct (asinh_mag_ok _ _ _ _ Hvalid) as (red & E1 & _ & _ & G1).
  destruct (asinh_mag_ok _ _ _ _ Hplain) as (plain & E2 & _ & _ & G2).
  exists red, plain. split; [exact E1 | ]. split; [exact E2 | ].
  intros band Hin.
  destruct Hvalid as (Hlen & _ & _ & Hext).
  destruct (lookup_combine_In band _ softening Hin) as (b_band & Hb & _);
    [ now rewrite softening_length | ].
  do 3 eexists.
  split; [ exact (G1 band b_band Hin Hb) | ].
  split; [ exact (G2 band b_band Hin Hb) | ].
  split; [ apply getitem_ok; now apply Hext | ].
  rewrite map2_map_map. reflexivity.
Qed.

Lemma sweep_sample_valid (deredden : bool) :
  valid_call sweep_sample "model" "ugriz" deredden.
Proof.
  split; [reflexivity | ]. split; [reflexivity | ].
  split; [ | intros _ ]; intros band Hin; simpl in Hin;
    destruct Hin as [<- | [<- | [<- | [<- | [<- | []]]]]]; reflexivity.
Qed.

Lemma asinh_mag_deredden_subtracts_witness :
  valid_call sweep_sample "model" "ugriz" true /\
  exists red plain,
    asinh_mag sweep_sample "model" "ugriz" true = Ok red /\
    asinh_mag sweep_sample "model" "ugriz" false = Ok plain /\
    forall band, In band (iter_bands "ugriz") ->
      exists red_col plain_col ext,
        getitem red (mag_name "model" band) = Ok red_col /\
        getitem plain (mag_name "model" band) = Ok plain_col /\
        getitem sweep_sample (extinction_name band) = Ok ext /\
        red_col = map2 Rminus plain_col ext.
Proof.
  split; [ exact (sweep_sample_valid true) | ].
  exact (asinh_mag_deredden_subtracts sweep_sample "model" "ugriz" (sweep_sample_valid true)).
Defined.

End AsinhMore.

(** ** More on the auxiliary colours and on the image conversion *)

Module AuxMore.
Import Photometry Samples ArrayFacts AsinhFacts AuxFacts.
Local Open Scope string_scope.
Local Open Scope R_scope.

(** What a call that returns has computed. *)
Lemma auxilliary_colors_columns (data : ndarray) (bands : string) (aux : ndarray) :
  auxilliary_colors data bands = Ok aux ->
  fields aux = ["c_par"; "c_perp"; "d_perp"] /\
  shape aux = shape data /\
  getitem aux "c_par"
  = Ok (map (fun rec => c_par (rec "modelmag_g") (rec "modelmag_r") (rec "modelmag_i"))
            (records data)) /\
  getitem aux "c_perp"
  = Ok (map (fun rec => c_perp (rec "modelmag_g") (rec "modelmag_r") (rec "modelmag_i"))
            (records data)) /\
  getitem aux "d_perp"
  = Ok (map (fun rec => d_perp (rec "modelmag_g") (rec "modelmag_r") (rec "modelmag_i"))
            (records data)).
Proof.
  intros E.
  destruct (auxilliary_colors_inv _ _ _ E) as (band0 & H0 & Hu & Hg & Hr & Hi).
  destruct (auxilliary_colors_ok data bands band0 H0 Hu Hg Hr Hi) as (aux' & E' & H).
  assert (aux' = aux) by (unfold Ok in *; congruence). now subst aux'.
Qed.

Lemma map_combine3 {A B : Type} (h : R -> R -> R -> R)
    (f1 f2 f3 : A -> R) (g1 g2 g3 : B -> R) (l : list A) (l' : list B) :
  map f1 l = map g1 l' -> map f2 l = map g2 l' -> map f3 l = map g3 l' ->
  map (fun x => h (f1 x) (f2 x) (f3 x)) l = map (fun y => h (g1 y) (g2 y) (g3 y)) l'.
Proof.
  revert l'. induction l as [|x l IH]; intros [|y l'] H1 H2 H3; simpl in *;
    try reflexivity; try discriminate.
  injection H1 as E1 H1. injection H2 as E2 H2. injection H3 as E3 H3.
  rewrite E1, E2, E3. f_equal. now apply IH.
Qed.

(** X8. The pipeline of the notebook: the colours of the model magnitudes that
    [asinh_mag] returns.  On every valid call with magtype 'model' and the
    default bands [auxilliary_colors] accepts the output of [asinh_mag], and
    its three columns are, row by row, the colours of the g, r, i magnitudes
    computed from the fluxes (and extinctions) of that row. *)
Theorem colors_of_model_magnitudes (data : ndarray) (deredden : bool) :
  valid_call data "model" "ugriz" deredden ->
  let m := fun (band : string) (b_band : R) (rec : string -> R) =>
             mag_value b_band deredden (rec (flux_name "model" band))
                       (rec (extinction_name band)) in
  exists mag aux,
    asinh_mag data "model" "ugriz" deredden = Ok mag /\
    auxilliary_colors mag "ugriz" = Ok aux /\
    shape aux = shape data /\
    getitem aux "c_par"
    = Ok (map (fun rec => c_par (m "g" 0.9e-10 rec) (m "r" 1.2e-10 rec) (m "i" 1.8e-10 rec))
              (records data)) /\
    getitem aux "c_perp"
    = Ok (map (fun rec => c_perp (m "g" 0.9e-10 rec) (m "r" 1.2e-10 rec) (m "i" 1.8e-10 rec))
              (records data)) /\
    getitem aux "d_perp"
    = Ok (map (fun rec => d_perp (m "g" 0.9e-10 rec) (m "r" 1.2e-10 rec) (m "i" 1.8e-10 rec))
              (records data)).
Proof.
  intros Hvalid m.
  destruct (asinh_mag_ok data "model" "ugriz" deredden Hvalid) as (mag & E & F & S & G).
  assert (Hf : forall name, In name (map (mag_name "model") (iter_bands "ugriz")) ->
                            has_field mag name = true).
  { intros name Hin. apply has_field_In. now rewrite F. }
  assert (Hu : has_field mag "modelmag_u" = true) by (apply Hf; simpl; tauto).
  assert (Hg : has_field mag "modelmag_g" = true) by (apply Hf; simpl; tauto).
  assert (Hr : has_field mag "modelmag_r" = true) by (apply Hf; simpl; tauto).
  assert (Hi : has_field mag "modelmag_i" = true) by (apply Hf; simpl; tauto).
  destruct (auxilliary_colors_ok mag "ugriz" "u" eq_refl Hu Hg Hr Hi)
    as (aux & E' & _ & S' & C1 & C2 & C3).
  assert (Gg : map (fun rec => rec "modelmag_g") (records mag)
               = map (m "g" 0.9e-10) (records data)).
  { pose proof (G "g" 0.9e-10) as H. change (mag_name "model" "g") with "modelmag_g" in H.
    rewrite (getitem_ok mag _ Hg) in H.
    unfold Ok in H. specialize (H ltac:(simpl; tauto) eq_refl). now injection H. }
  assert (Gr : map (fun rec => rec "modelmag_r") (records mag)
               = map (m "r" 1.2e-10) (records data)).
  { pose proof (G "r" 1.2e-10) as H. change (mag_name "model" "r") with "modelmag_r" in H.
    rewrite (getitem_ok mag _ Hr) in H.
    unfold Ok in H. specialize (H ltac:(simpl; tauto) eq_refl). now injection H. }
  assert (Gi : map (fun rec => rec "modelmag_i") (records mag)
               = map (m "i" 1.8e-10) (records data)).
  { pose proof (G "i" 1.8e-10) as H. change (mag_name "model" "i") with "modelmag_i" in H.
    rewrite (getitem_ok mag _ Hi) in H.
    unfold Ok in H. specialize (H ltac:(simpl; tauto) eq_refl). now injection H. }
  exists mag, aux. split; [exact E | ]. split; [exact E' | ].
  split; [congruence | ].
  rewrite C1, C2, C3. unfold Ok.
  split; [ | split ]; f_equal.
  - exact (map_combine3 c_par _ _ _ _ _ _ _ _ Gg Gr Gi).
  - exact (map_combine3 c_perp _ _ _ _ _ _ _ _ Gg Gr Gi).
  - exact (map_combine3 d_perp _ _ _ _ _ _ _ _ Gg Gr Gi).
Qed.

Lemma colors_of_model_magnitudes_witness :
  valid_call sweep_sample "model" "ugriz" true /\
  exists mag aux,
    asinh_mag sweep_sample "model" "ugriz" true = Ok mag /\
    auxilliary_colors mag "ugriz" = Ok aux /\
    shape aux = shape sweep_sample.
Proof.
  split; [ exact (AsinhMore.sweep_sample_valid true) | ].
  destruct (colors_of_model_magnitudes sweep_sample true (AsinhMore.sweep_sample_valid true))
    as (mag & aux & E & E' & S & _).
  exists mag, aux. split; [exact E | ]. split; [exact E' | exact S].
Defined.

Lemma length_append (s t : string) :
  String.length (s ++ t)%string = (String.length s + String.length t)%nat.
Proof. induction s as [|c s IH]; simpl; [reflexivity | now rewrite IH]. Qed.

Lemma append_same_length (s t a b : string) :
  String.length a = String.length b -> (s ++ a = t ++ b)%string -> s = t /\ a = b.
Proof.
  intros Hlen. revert t. induction s as [|c s IH]; intros [|d t] H; simpl in H.
  - now split.
  - exfalso. apply (f_equal String.length) in H. simpl in H.
    rewrite length_append in H. lia.
  - exfalso. apply (f_equal String.length) in H. simpl in H.
    rewrite length_append in H. lia.
  - injection H as -> H. destruct (IH t H) as (-> & ->). now split.
Qed.

Lemma mag_name_model (magtype band : string) :
  String.length band = 1%nat ->
  mag_name magtype band = "modelmag_u" -> magtype = "model".
Proof.
  intros Hlen H. unfold mag_name in H.
  change "modelmag_u" with ("model" ++ "mag_u")%string in H.
  apply append_same_length in H; [ tauto | ].
  rewrite length_append, Hlen. reflexivity.
Qed.

(** X9. The colours can only be taken of model magnitudes: the output of
    [asinh_mag] for any other magnitude type (psf, cmodel, fiber2, ...) is
    refused by the default call of [auxilliary_colors], which looks for the
    column modelmag_u. *)
Theorem colors_need_model_magnitudes (data : ndarray) (magtype : string)
    (deredden : bool) (mag : ndarray) :
  asinh_mag data magtype "ugriz" deredden = Ok mag ->
  magtype <> "model" ->
  auxilliary_colors mag "ugriz" = Raise (NoField "modelmag_u").
Proof.
  intros E Hne.
  destruct (asinh_mag_ok data magtype "ugriz" deredden (asinh_mag_inv _ _ _ _ _ E))
    as (mag' & E' & F & _).
  assert (mag' = mag) by (unfold Ok in *; congruence). subst mag'.
  assert (Hu : has_field mag "modelmag_u" = false).
  { destruct (has_field mag "modelmag_u") eqn:H; [ exfalso | reflexivity ].
    apply has_field_In in H. rewrite F in H. apply in_map_iff in H.
    destruct H as (band & Hname & Hin). apply Hne.
    apply (mag_name_model magtype band); [ | exact Hname ].
    simpl in Hin. destruct Hin as [<- | [<- | [<- | [<- | [<- | []]]]]]; reflexivity. }
  unfold auxilliary_colors. simpl first_band. cbv beta iota delta [bind Ok].
  change ("modelmag_" ++ "u")%string with "modelmag_u".
  now rewrite (getitem_raise _ _ Hu).
Qed.

Lemma colors_need_model_magnitudes_witness :
  exists mag,
    asinh_mag psf_sample "psf" "ugriz" false = Ok mag /\
    "psf" <> "model" /\
    auxilliary_colors mag "ugriz" = Raise (NoField "modelmag_u").
Proof.
  eexists.
  assert (E : asinh_mag psf_sample "psf" "ugriz" false = Ok _) by reflexivity.
  assert (Hne : "psf" <> "model") by discriminate.
  split; [exact E | ]. split; [exact Hne | ].
  exact (colors_need_model_magnitudes psf_sample "psf" false _ E Hne).
Defined.

(** X11. The argument [bands] selects nothing: it only names the column whose
    dtype is read.  Two calls on one input that both return, whatever their
    [bands], return the same three columns, for as many rows as the input. *)
Theorem auxilliary_colors_bands_irrelevant (data : ndarray) (bands bands' : string)
    (aux aux' : ndarray) :
  auxilliary_colors data bands = Ok aux ->
  auxilliary_colors data bands' = Ok aux' ->
  fields aux' = fields aux /\
  shape aux' = shape aux /\
  getitem aux' "c_par" = getitem aux "c_par" /\
  getitem aux' "c_perp" = getitem aux "c_perp" /\
  getitem aux' "d_perp" = getitem aux "d_perp".
Proof.
  intros E E'.
  destruct (auxilliary_colors_columns _ _ _ E) as (F & S & C1 & C2 & C3).
  destruct (auxilliary_colors_columns _ _ _ E') as (F' & S' & C1' & C2' & C3').
  repeat split; congruence.
Qed.

Lemma auxilliary_colors_bands_irrelevant_witness :
  exists aux aux',
    auxilliary_colors ugri_mags "ugriz" = Ok aux /\
    auxilliary_colors ugri_mags "gri" = Ok aux' /\
    fields aux' = fields aux /\
    shape aux' = shape aux /\
    getitem aux' "c_par" = getitem aux "c_par" /\
    getitem aux' "c_perp" = getitem aux "c_perp" /\
    getitem aux' "d_perp" = getitem aux "d_perp".
Proof.
  do 2 eexists.
  assert (E : auxilliary_colors ugri_mags "ugriz" = Ok _) by reflexivity.
  assert (E' : auxilliary_colors ugri_mags "gri" = Ok _) by reflexivity.
  split; [exact E | ]. split; [exact E' | ].
  exact (auxilliary_colors_bands_irrelevant _ _ _ _ _ E E').
Defined.

(** X12. [asinh_image] knows the five bands u, g, r, i, z and no other: for any
    other band it raises KeyError with that band; for these it returns an
    image of the same size, each pixel by the formula with the band's
    constant. *)
Theorem asinh_image_bands (image : list R) (band : string) :
  match documented_b band with
  | None => asinh_image image band = Raise (KeyError band)
  | Some b_band =>
      exists mags,
        asinh_image image band = Ok mags /\
        mags = map (fun flux => (-2.5 / ln 10) * (arcsinh (flux * 1e-9 / (2 * b_band))
                                                  + ln b_band)) image /\
        List.length mags = List.length image
  end.
Proof.
  assert (Hsome : forall b_band,
            lookup band (combine (iter_bands "ugriz") softening) = Some b_band ->
            exists mags,
              asinh_image image band = Ok mags /\
              mags = map (fun flux => mag_value b_band false flux 0) image /\
              List.length mags = List.length image).
  { intros b_band Hb. eexists. split; [ exact (asinh_image_ugriz image band b_band Hb) | ].
    split; [reflexivity | apply length_map]. }
  unfold documented_b.
  destruct (String.eqb band "u") eqn:Eu;
    [ apply Hsome; simpl; now rewrite Eu | ].
  destruct (String.eqb band "g") eqn:Eg;
    [ apply Hsome; simpl; now rewrite Eu, Eg | ].
  destruct (String.eqb band "r") eqn:Er;
    [ apply Hsome; simpl; now rewrite Eu, Eg, Er | ].
  destruct (String.eqb band "i") eqn:Ei;
    [ apply Hsome; simpl; now rewrite Eu, Eg, Er, Ei | ].
  destruct (String.eqb band "z") eqn:Ez;
    [ apply Hsome; simpl; now rewrite Eu, Eg, Er, Ei, Ez | ].
  unfold asinh_image, dict_item. simpl. now rewrite Eu, Eg, Er, Ei, Ez.
Qed.

Lemma asinh_image_bands_witness :
  (exists mags,
     asinh_image [0; 1] "r" = Ok mags /\
     mags = map (fun flux => (-2.5 / ln 10) * (arcsinh (flux * 1e-9 / (2 * 1.2e-10))
                                               + ln 1.2e-10)) [0; 1] /\
     List.length mags = List.length [0; 1]) /\
  asinh_image [0; 1] "y" = Raise (KeyError "y").
Proof.
  split; [ exact (asinh_image_bands [0; 1] "r") | exact (asinh_image_bands [0; 1] "y") ].
Defined.

End AuxMore.

(** ** Paths of the file service *)

Module PathFacts.
Import Spectro.
Local Open Scope string_scope.

Lemma format_d_pad (width : nat) (n : Z) :
  format_d width n = NilEmpty.string_of_int (pad width (Z.to_int n)).
Proof. unfold format_d, pad. destruct (Z.to_int n); reflexivity. Qed.

Lemma of_uint_zfill (k : nat) (d : Decimal.uint) : Z.of_uint (zfill k d) = Z.of_uint d.
Proof. induction k as [|k IH]; simpl; [reflexivity | exact IH]. Qed.

Lemma of_int_pad (width : nat) (i : Decimal.int) : Z.of_int (pad width i) = Z.of_int i.
Proof. destruct i; simpl; now rewrite of_uint_zfill. Qed.

(** Zero padding never truncates and never merges two numbers. *)
Lemma format_d_inj (width : nat) (n n' : Z) :
  format_d width n = format_d width n' -> n = n'.
Proof.
  rewrite !format_d_pad. intros H.
  apply (f_equal NilEmpty.int_of_string) in H. rewrite !NilEmpty.isi in H.
  injection H as H. apply (f_equal Z.of_int) in H.
  now rewrite !of_int_pad, !DecimalZ.of_to in H.
Qed.

Lemma no_char_uint (c : ascii) (d : Decimal.uint) :
  c = "/"%char \/ c = "."%char ->
  no_char c (NilEmpty.string_of_uint d) = true.
Proof.
  intros [-> | ->]; induction d; simpl; auto.
Qed.

Lemma no_char_format_d (c : ascii) (width : nat) (n : Z) :
  c = "/"%char \/ c = "."%char -> no_char c (format_d width n) = true.
Proof.
  intros Hc. unfold format_d. destruct (Z.to_int n).
  - now apply no_char_uint.
  - change (no_char c (String "-" ?s)) with (negb (Ascii.eqb "-" c) && no_char c s)%bool.
    rewrite no_char_uint by assumption. destruct Hc as [-> | ->]; reflexivity.
Qed.

(** Two strings free of a separator, each followed by the separator, can
    only agree when they are equal and what follows them is equal. *)
Lemma split_at_separator (c : ascii) (s1 s2 r1 r2 : string) :
  no_char c s1 = true -> no_char c s2 = true ->
  s1 ++ String c r1 = s2 ++ String c r2 -> s1 = s2 /\ r1 = r2.
Proof.
  revert s2. induction s1 as [|a s1 IH]; intros [|b s2] H1 H2 H; simpl in *.
  - injection H as ->. now split.
  - injection H as <- _. rewrite Ascii.eqb_refl in H2. discriminate.
  - injection H as -> _. rewrite Ascii.eqb_refl in H1. discriminate.
  - injection H as -> H.
    apply andb_true_iff in H1, H2. destruct H1 as [_ H1], H2 as [_ H2].
    destruct (IH s2 H1 H2 H) as (-> & ->). now split.
Qed.

Lemma append_cancel_l (s a b : string) : s ++ a = s ++ b -> a = b.
Proof.
  induction s as [|c s IH]; simpl; intros H; [assumption | ].
  injection H as H. now apply IH.
Qed.

(** X16. Spectra of different plates or dates are read from different files:
    for one root and one reduction, the path of the spPlate file determines
    the plate and the MJD, whatever their number of digits. *)
Theorem spplate_path_inj (sas run2d : string) (plate mjd plate' mjd' : Z) :
  spplate_path sas run2d plate mjd = spplate_path sas run2d plate' mjd' ->
  plate = plate' /\ mjd = mjd'.
Proof.
  unfold spplate_path. intros H.
  apply (append_cancel_l sas) in H.
  apply (append_cancel_l "sdss/spectro/redux/") in H.
  apply (append_cancel_l run2d) in H.
  apply (append_cancel_l "/") in H.
  change ("/spPlate-" ++ ?x) with (String "/" ("spPlate-" ++ x)) in H.
  apply (split_at_separator "/") in H; try (apply no_char_format_d; now left).
  destruct H as (Hp & H). apply format_d_inj in Hp. subst plate'.
  split; [reflexivity | ].
  apply (append_cancel_l "spPlate-") in H.
  apply (append_cancel_l (format_d 4 plate)) in H.
  apply (append_cancel_l "-") in H.
  change ".fits" with (String "." "fits") in H.
  apply (split_at_separator ".") in H; try (apply no_char_format_d; now right).
  destruct H as (Hm & _). now apply format_d_inj in Hm.
Qed.

Lemma spplate_path_inj_witness :
  spplate_path "sdss_dr14://" "v5_10_0" 4202 55445
  = spplate_path "sdss_dr14://" "v5_10_0" (4200 + 2) (55000 + 445) /\
  4202%Z = (4200 + 2)%Z /\ 55445%Z = (55000 + 445)%Z.
Proof.
  assert (H : spplate_path "sdss_dr14://" "v5_10_0" 4202 55445
              = spplate_path "sdss_dr14://" "v5_10_0" (4200 + 2) (55000 + 445))
    by reflexivity.
  split; [exact H | exact (spplate_path_inj _ _ _ _ _ _ H)].
Defined.

Lemma string_length_append (s t : string) :
  String.length (s ++ t) = (String.length s + String.length t)%nat.
Proof. induction s as [|c s IH]; simpl; [reflexivity | now rewrite IH]. Qed.

Lemma append_cancel_r (s t r : string) : s ++ r = t ++ r -> s = t.
Proof.
  revert t. induction s as [|c s IH]; intros [|d t] H; simpl in H.
  - reflexivity.
  - exfalso. apply (f_equal String.length) in H. simpl in H.
    rewrite string_length_append in H. lia.
  - exfalso. apply (f_equal String.length) in H. simpl in H.
    rewrite string_length_append in H. lia.
  - injection H as -> H. f_equal. now apply IH.
Qed.

(** X17. Frames are read from different files: for one root, the path of the
    frame file determines the run, the camera column and the field when the
    band is known, and determines the band when the three numbers are known. *)
Theorem frame_path_inj (sas : string) :
  (forall band run camcol field run' camcol' field',
     frame_path sas run camcol band field = frame_path sas run' camcol' band field' ->
     run = run' /\ camcol = camcol' /\ field = field') /\
  (forall run camcol field band band',
     frame_path sas run camcol band field = frame_path sas run camcol band' field ->
     band = band').
Proof.
  split.
  - intros band run camcol field run' camcol' field'. unfold frame_path. intros H.
    apply (append_cancel_l sas) in H.
    apply (append_cancel_l "eboss/photoObj/frames/301/") in H.
    change ("/" ++ ?x) with (String "/" x) in H.
    apply (split_at_separator "/") in H; try (apply no_char_format_d; now left).
    destruct H as (Hr & H). apply format_d_inj in Hr. subst run'.
    change ("/frame-" ++ ?x) with (String "/" ("frame-" ++ x)) in H.
    apply (split_at_separator "/") in H; try (apply no_char_format_d; now left).
    destruct H as (Hc & H). apply format_d_inj in Hc. subst camcol'.
    split; [reflexivity | ]. split; [reflexivity | ].
    apply (append_cancel_l "frame-") in H.
    apply (append_cancel_l band) in H.
    apply (append_cancel_l "-") in H.
    apply (append_cancel_l (format_d 6 run)) in H.
    apply (append_cancel_l "-") in H.
    apply (append_cancel_l (format_d 0 camcol)) in H.
    apply (append_cancel_l "-") in H.
    change ".fits.bz2" with (String "." "fits.bz2") in H.
    apply (split_at_separator ".") in H; try (apply no_char_format_d; now right).
    destruct H as (Hf & _). now apply format_d_inj in Hf.
  - intros run camcol field band band'. unfold frame_path. intros H.
    apply (append_cancel_l sas) in H.
    apply (append_cancel_l "eboss/photoObj/frames/301/") in H.
    apply (append_cancel_l (format_d 0 run)) in H.
    apply (append_cancel_l "/") in H.
    apply (append_cancel_l (format_d 0 camcol)) in H.
    apply (append_cancel_l "/frame-") in H.
    now apply append_cancel_r in H.
Qed.

Lemma frame_path_inj_witness :
  frame_path "sdss_dr14://" 6122 1 "r" 13
  = frame_path "sdss_dr14://" (6000 + 122) (0 + 1) "r" (10 + 3) /\
  6122%Z = (6000 + 122)%Z /\ 1%Z = (0 + 1)%Z /\ 13%Z = (10 + 3)%Z.
Proof.
  assert (H : frame_path "sdss_dr14://" 6122 1 "r" 13
              = frame_path "sdss_dr14://" (6000 + 122) (0 + 1) "r" (10 + 3))
    by reflexivity.
  split; [exact H | exact (proj1 (frame_path_inj "sdss_dr14://") _ _ _ _ _ _ _ H)].
Defined.

End PathFacts.

(** ** Spectra read from a plate file *)

Module SpectroFacts.
Import Spectro.
Local Open Scope string_scope.
Local Open Scope R_scope.

Lemma list_item_ok {A : Type} (l : list A) (i : nat) (x : A) :
  nth_error l i = Some x -> list_item l i = Ok x.
Proof. unfold list_item. now intros ->. Qed.


(** Fibers are counted from one: fiber [k] is row [k - 1]. *)
Lemma index_row_fiber (image : list (list R)) (fiber : Z) (row : list R) :
  (1 <= fiber)%Z ->
  nth_error image (Z.to_nat (fiber - 1)) = Some row ->
  index_row image (fiber - 1) = Ok row.
Proof.
  intros Hf Hrow. unfold index_row.
  assert (Hlt : (Z.to_nat (fiber - 1) < List.length image)%nat).
  { apply nth_error_Some. congruence. }
  replace ((0 <=? fiber - 1) && (fiber - 1 <? Z.of_nat (List.length image)))%Z with true.
  - now apply list_item_ok.
  - symmetry. apply andb_true_iff. split; [apply Z.leb_le | apply Z.ltb_lt]; lia.
Qed.

(** Fiber 0 is row -1, which numpy counts from the end: the last row. *)
Lemma index_row_last (image : list (list R)) (row : list R) :
  nth_error image (List.length image - 1) = Some row ->
  index_row image (0 - 1) = Ok row.
Proof.
  intros Hrow. unfold index_row.
  assert (Hlt : (List.length image - 1 < List.length image)%nat).
  { apply nth_error_Some. congruence. }
  change (0 <=? 0 - 1)%Z with false. cbn [andb].
  replace ((- Z.of_nat (List.length image) <=? 0 - 1) && (0 - 1 <? 0))%Z with true.
  - apply list_item_ok.
    replace (Z.to_nat (Z.of_nat (List.length image) + (0 - 1)))
      with (List.length image - 1)%nat by lia.
    exact Hrow.
  - symmetry. apply andb_true_iff. split; [apply Z.leb_le | apply Z.ltb_lt]; lia.
Qed.

Lemma index_row_beyond (image : list (list R)) (fiber : Z) :
  (Z.of_nat (List.length image) < fiber)%Z ->
  index_row image (fiber - 1) = Raise IndexError.
Proof.
  intros H. unfold index_row.
  replace (fiber - 1 <? Z.of_nat (List.length image))%Z with false
    by (symmetry; apply Z.ltb_ge; lia).
  replace (fiber - 1 <? 0)%Z with false by (symmetry; apply Z.ltb_ge; lia).
  now rewrite !andb_false_r.
Qed.

Lemma header_item_ok (hdr : list (string * card)) (key : string) (c : card) :
  header_lookup key hdr = Some c -> header_item hdr key = Ok c.
Proof. unfold header_item. now intros ->. Qed.

Lemma wavelength_grid (c0 c1 : R) (n : nat) :
  map (fun x => Rpower 10.0 x) (map (fun k => c0 + c1 * k) (map INR (seq 0 n)))
  = map (pixel_wavelength c0 c1) (seq 0 n).
Proof.
  rewrite !map_map. apply map_ext. intros k. unfold pixel_wavelength.
  replace 10.0 with 10 by lra. reflexivity.
Qed.

Lemma nth_error_seq_inv (a n k v : nat) :
  nth_error (seq a n) k = Some v -> v = (a + k)%nat.
Proof.
  revert a k. induction n as [|n IH]; intros a [|k] H; simpl in H; try discriminate.
  - injection H as <-. lia.
  - apply IH in H. lia.
Qed.

Lemma nth_error_grid (f : nat -> R) (n k : nat) (x : R) :
  nth_error (map f (seq 0 n)) k = Some x -> x = f k.
Proof.
  rewrite nth_error_map. destruct (nth_error (seq 0 n) k) as [v|] eqn:E; [ | discriminate ].
  apply nth_error_seq_inv in E. simpl in E. subst v. simpl. congruence.
Qed.

Lemma pixel_wavelength_nondecreasing (c0 c1 : R) (k k' : nat) :
  0 <= c1 -> (k <= k')%nat -> pixel_wavelength c0 c1 k <= pixel_wavelength c0 c1 k'.
Proof.
  intros Hc Hk. unfold pixel_wavelength. apply Rle_Rpower; [lra | ].
  apply le_INR in Hk. nra.
Qed.

Lemma arange_seq (n : card) : arange n = map INR (seq 0 (List.length (arange n))).
Proof. destruct n; simpl; now rewrite length_map, length_seq. Qed.

Section FileService.
Variable fits_open : string -> result (list hdu).
Variables (plate mjd : Z) (run2d : string) (release : Z) (sas : string).
Variables (hdulist : list hdu) (hdu0 hdu1 hdu6 : hdu) (coeff0 coeff1 naxis1 : card).

Hypothesis opened : fits_open (spplate_path sas run2d plate mjd) = Ok hdulist.
Hypothesis primary : nth_error hdulist 0 = Some hdu0.
Hypothesis second : nth_error hdulist 1 = Some hdu1.
Hypothesis seventh : nth_error hdulist 6 = Some hdu6.
Hypothesis has_coeff0 : header_lookup "COEFF0" (header hdu0) = Some coeff0.
Hypothesis has_coeff1 : header_lookup "COEFF1" (header hdu0) = Some coeff1.
Hypothesis has_naxis1 : header_lookup "NAXIS1" (header hdu0) = Some naxis1.

(** On a file that has its HDUs and its cards, what is left of the call is
    the three row accesses. *)
Lemma extract_spectrum_rows (fiber : Z) :
  extract_spectrum fits_open plate mjd fiber run2d release sas
  = bind (index_row (data hdu0) (fiber - 1)) (fun flux =>
    bind (index_row (data hdu1) (fiber - 1)) (fun ivar =>
    bind (index_row (data hdu6) (fiber - 1)) (fun sky =>
    Ok (map (pixel_wavelength (card_value coeff0) (card_value coeff1))
            (seq 0 (List.length (arange naxis1))),
        flux, ivar, sky)))).
Proof.
  unfold extract_spectrum. rewrite opened. cbv beta iota zeta delta [bind Ok].
  rewrite (list_item_ok _ _ _ primary). cbv beta iota delta [Ok].
  destruct (index_row (data hdu0) (fiber - 1)) as [e | flux]; [reflexivity | ].
  rewrite (list_item_ok _ _ _ second). cbv beta iota delta [Ok].
  destruct (index_row (data hdu1) (fiber - 1)) as [e | ivar]; [reflexivity | ].
  rewrite (list_item_ok _ _ _ seventh). cbv beta iota delta [Ok].
  destruct (index_row (data hdu6) (fiber - 1)) as [e | sky]; [reflexivity | ].
  rewrite (header_item_ok _ _ _ has_coeff0), (header_item_ok _ _ _ has_coeff1),
    (header_item_ok _ _ _ has_naxis1).
  cbv beta iota delta [Ok].
  rewrite (arange_seq naxis1) at 1. now rewrite wavelength_grid.
Qed.

(** X13. Fibers are numbered from 1: on a file that has its HDUs and cards, fiber
    [k >= 1] gets row [k - 1] of the images of HDUs 0, 1 and 6 as flux,
    inverse variance and sky; fiber 0 is not refused but gets the last row of
    each image; a fiber number above the number of rows raises IndexError. *)
Theorem extract_spectrum_fiber :
  let grid := map (pixel_wavelength (card_value coeff0) (card_value coeff1))
                  (seq 0 (List.length (arange naxis1))) in
  (forall fiber flux ivar sky,
     (1 <= fiber)%Z ->
     nth_error (data hdu0) (Z.to_nat (fiber - 1)) = Some flux ->
     nth_error (data hdu1) (Z.to_nat (fiber - 1)) = Some ivar ->
     nth_error (data hdu6) (Z.to_nat (fiber - 1)) = Some sky ->
     extract_spectrum fits_open plate mjd fiber run2d release sas
     = Ok (grid, flux, ivar, sky)) /\
  (forall flux ivar sky,
     nth_error (data hdu0) (List.length (data hdu0) - 1) = Some flux ->
     nth_error (data hdu1) (List.length (data hdu1) - 1) = Some ivar ->
     nth_error (data hdu6) (List.length (data hdu6) - 1) = Some sky ->
     extract_spectrum fits_open plate mjd 0 run2d release sas
     = Ok (grid, flux, ivar, sky)) /\
  (forall fiber,
     (Z.of_nat (List.length (data hdu0)) < fiber)%Z ->
     extract_spectrum fits_open plate mjd fiber run2d release sas = Raise IndexError).
Proof.
  intros grid. split; [ | split ].
  - intros fiber flux ivar sky Hf H0 H1 H6. rewrite extract_spectrum_rows.
    now rewrite (index_row_fiber _ _ _ Hf H0), (index_row_fiber _ _ _ Hf H1),
      (index_row_fiber _ _ _ Hf H6).
  - intros flux ivar sky H0 H1 H6. rewrite extract_spectrum_rows.
    now rewrite (index_row_last _ _ H0), (index_row_last _ _ H1), (index_row_last _ _ H6).
  - intros fiber Hf. rewrite extract_spectrum_rows.
    now rewrite (index_row_beyond _ _ Hf).
Qed.

(** X14. The wavelengths of a call that returns: one per pixel of the header's
    NAXIS1, pixel [k] at 10^(COEFF0 + COEFF1*k); when COEFF1 is not negative
    they never decrease along the array. *)
Theorem extract_spectrum_wavelengths (fiber : Z) (wavelength flux ivar sky : list R) :
  extract_spectrum fits_open plate mjd fiber run2d release sas
  = Ok (wavelength, flux, ivar, sky) ->
  let c0 := card_value coeff0 in
  let c1 := card_value coeff1 in
  (forall n, naxis1 = IntCard n -> List.length wavelength = Z.to_nat n) /\
  (forall k x, nth_error wavelength k = Some x -> x = Rpower 10 (c0 + c1 * INR k)) /\
  (0 <= c1 ->
   forall k k' x y, (k <= k')%nat ->
     nth_error wavelength k = Some x -> nth_error wavelength k' = Some y -> x <= y).
Proof.
  intros H c0 c1. rewrite extract_spectrum_rows in H.
  destruct (index_row (data hdu0) (fiber - 1)) as [e | f]; [discriminate | ].
  destruct (index_row (data hdu1) (fiber - 1)) as [e | i]; [discriminate | ].
  destruct (index_row (data hdu6) (fiber - 1)) as [e | s]; [discriminate | ].
  unfold bind, Ok in H. injection H as <- _ _ _.
  split; [ | split ].
  - intros n ->. rewrite length_map, length_seq. simpl. now rewrite length_map, length_seq.
  - intros k x Hx. apply nth_error_grid in Hx. now subst x.
  - intros Hc k k' x y Hk Hx Hy. apply nth_error_grid in Hx, Hy. subst x y.
    now apply pixel_wavelength_nondecreasing.
Qed.

End FileService.

Section Failures.
Variable fits_open : string -> result (list hdu).
Variables (plate mjd fiber : Z) (run2d : string) (release : Z) (sas : string).


End Failures.

Lemma extract_spectrum_fiber_witness :
  sample_service (spplate_path "sdss_dr14://" "v5_10_0" 4202 55445) = Ok sample_file /\
  extract_spectrum sample_service 4202 55445 2 "v5_10_0" 14 "sdss_dr14://"
  = Ok (map (pixel_wavelength 3.5 0.0001) (seq 0 2), [3; 4], [3; 4], [3; 4]) /\
  extract_spectrum sample_service 4202 55445 0 "v5_10_0" 14 "sdss_dr14://"
  = Ok (map (pixel_wavelength 3.5 0.0001) (seq 0 2), [5; 6], [5; 6], [5; 6]) /\
  extract_spectrum sample_service 4202 55445 4 "v5_10_0" 14 "sdss_dr14://"
  = Raise IndexError.
Proof.
  assert (Hopen : sample_service (spplate_path "sdss_dr14://" "v5_10_0" 4202 55445)
                  = Ok sample_file) by reflexivity.
  pose proof (extract_spectrum_fiber sample_service 4202 55445 "v5_10_0" 14 "sdss_dr14://"
                sample_file sample_hdu sample_hdu sample_hdu
                (FloatCard 3.5) (FloatCard 0.0001) (IntCard 2)
                Hopen eq_refl eq_refl eq_refl eq_refl eq_refl eq_refl) as (A & B & C).
  split; [exact Hopen | ].
  split; [ exact (A 2%Z _ _ _ ltac:(lia) eq_refl eq_refl eq_refl) | ].
  split; [ exact (B _ _ _ eq_refl eq_refl eq_refl) | ].
  apply (C 4%Z). simpl. lia.
Defined.

Lemma extract_spectrum_wavelengths_witness :
  exists wavelength x y,
    extract_spectrum sample_service 4202 55445 2 "v5_10_0" 14 "sdss_dr14://"
    = Ok (wavelength, [3; 4], [3; 4], [3; 4]) /\
    0 <= 0.0001 /\
    List.length wavelength = 2%nat /\
    nth_error wavelength 0 = Some x /\ nth_error wavelength 1 = Some y /\ x <= y.
Proof.
  do 3 eexists.
  assert (Hopen : sample_service (spplate_path "sdss_dr14://" "v5_10_0" 4202 55445)
                  = Ok sample_file) by reflexivity.
  assert (E : extract_spectrum sample_service 4202 55445 2 "v5_10_0" 14 "sdss_dr14://"
              = Ok (_, [3; 4], [3; 4], [3; 4])) by reflexivity.
  assert (Hc : 0 <= 0.0001) by lra.
  pose proof (extract_spectrum_wavelengths sample_service 4202 55445 "v5_10_0" 14
                "sdss_dr14://" sample_file sample_hdu sample_hdu sample_hdu
                (FloatCard 3.5) (FloatCard 0.0001) (IntCard 2)
                Hopen eq_refl eq_refl eq_refl eq_refl eq_refl eq_refl
                2%Z _ _ _ _ E) as (Hlen & _ & Hord).
  split; [exact E | ]. split; [exact Hc | ].
  split; [ exact (Hlen 2%Z eq_refl) | ].
  split; [reflexivity | ]. split; [reflexivity | ].
  exact (Hord Hc 0%nat 1%nat _ _ ltac:(lia) eq_refl eq_refl).
Defined.


End SpectroFacts.

(** ** The LOWZ selection *)

Module SelectionFacts.
Import Photometry Selection ArrayFacts.
Local Open Scope string_scope.
Local Open Scope R_scope.







End SelectionFacts.
